(** * ksonnet parameter editor: metadata/params

    A shallow embedding of [metadata/params/params.go] and of the locator
    that accompanies it ([visitComponentsObj], [visit] and helpers), together
    with the parameter-file templates of the manager.

    The go-jsonnet lexer and parser and Go's [strconv.FormatFloat] are
    libraries outside the repository: the operations below take them as
    parameters.  Module [Jsonnet] gives a small executable reader for the
    fragment of the language the parameter files use, so that the
    operations can be run on concrete documents. *)

From Stdlib Require Import ZArith String Ascii List Floats DecimalString.
From stdpp Require Import gmap strings list sorting.

Open Scope string_scope.

(** ** Source locations (go-jsonnet [ast.Location], [ast.LocationRange]) *)

Record Location := mkLocation { Line : Z; Column : Z }.
Record LocationRange := mkLocationRange { Begin : Location; End_ : Location }.

(** ** The syntax tree (go-jsonnet package [ast]) *)

Set Warnings "-register-all".

Inductive LiteralStringKind :=
| StringSingle | StringDouble | StringBlock
| VerbatimStringDouble | VerbatimStringSingle.

Inductive ObjectFieldKind :=
| ObjectAssert | ObjectFieldID | ObjectFieldExpr | ObjectFieldStr
| ObjectLocal | ObjectNullID | ObjectNullExpr | ObjectNullStr.

Inductive ObjectFieldHide :=
| ObjectFieldHidden | ObjectFieldInherit | ObjectFieldVisible.

(** [Nil] is Go's nil interface value: every [ast.Node] slot may hold it.
    The node base (location, free variables) is kept for [Object] only, the
    one kind whose [Loc()] the program reads.  Operators of [Binary] and
    [Unary] are kept as their source text. *)
Inductive Node :=
| Nil
| Apply (Target : Node) (Positional : list Node)
        (Named : list (string * Node)) (TrailingComma TailStrict : bool)
| ApplyBrace (Left Right : Node)
| Array (Elements : list Node) (TrailingComma : bool)
| ArrayComp (Body : Node) (TrailingComma : bool) (Spec : ForSpec)
| Assert (Cond Message Rest : Node)
| Binary (Left : Node) (Op : string) (Right : Node)
| Conditional (Cond BranchTrue BranchFalse : Node)
| Dollar
| Error (Expr : Node)
| Function (fn : FunctionT)
| Import (File : string)
| ImportStr (File : string)
| Index (Target Index : Node) (Id : option string)
| Slice (Target BeginIndex EndIndex Step : Node)
| Local (Binds : list LocalBind) (Body : Node)
| LiteralBoolean (Value : bool)
| LiteralNull
| LiteralNumber (Value : float) (OriginalString : string)
| LiteralString (Value : string) (Kind : LiteralStringKind) (BlockIndent : string)
| Object (n : ObjectT)
| DesugaredObject (Asserts : list Node) (Fields : list DesugaredObjectField)
| ObjectComp (Fields : list ObjectField) (TrailingComma : bool) (Spec : ForSpec)
| ObjectComprehensionSimple (Field Value : Node) (Id : string) (Array : Node)
| Self
| SuperIndex (Index : Node) (Id : option string)
| InSuper (Index : Node)
| Unary (Op : string) (Expr : Node)
| Var (Id : string)
with ObjectT :=
| mkObject (Loc : LocationRange) (Fields : list ObjectField) (TrailingComma : bool)
with ObjectField :=
| mkObjectField (Kind : ObjectFieldKind) (Hide : ObjectFieldHide)
    (SuperSugar MethodSugar : bool) (Method : option FunctionT)
    (Expr1 : Node) (Id : option string) (Params : option Parameters)
    (TrailingComma : bool) (Expr2 Expr3 : Node)
with FunctionT :=
| mkFunction (Parameters_ : Parameters) (TrailingComma : bool) (Body : Node)
with Parameters :=
| mkParameters (Required : list string) (Optional : list NamedParameter)
with NamedParameter :=
| mkNamedParameter (Name : string) (DefaultArg : Node)
with ForSpec :=
| mkForSpec (VarName : string) (Expr : Node) (Conditions : list IfSpec)
    (Outer : option ForSpec)
with IfSpec :=
| mkIfSpec (Expr : Node)
with LocalBind :=
| mkLocalBind (Variable_ : string) (Body : Node) (Fun : option FunctionT)
with DesugaredObjectField :=
| mkDesugaredObjectField (Hide : ObjectFieldHide) (Name Body : Node) (PlusSuper : bool).

(** Field selectors of the structs the program reads. *)
Definition ObjLoc (n : ObjectT) : LocationRange := let 'mkObject l _ _ := n in l.
Definition ObjFields (n : ObjectT) : list ObjectField := let 'mkObject _ fs _ := n in fs.
Definition FieldKind (f : ObjectField) : ObjectFieldKind :=
  let 'mkObjectField k _ _ _ _ _ _ _ _ _ _ := f in k.
Definition FieldExpr1 (f : ObjectField) : Node :=
  let 'mkObjectField _ _ _ _ _ e1 _ _ _ _ _ := f in e1.
Definition FieldId (f : ObjectField) : option string :=
  let 'mkObjectField _ _ _ _ _ _ id _ _ _ _ := f in id.
Definition FieldExpr2 (f : ObjectField) : Node :=
  let 'mkObjectField _ _ _ _ _ _ _ _ _ e2 _ := f in e2.

(** ** Errors

    The Go code reports errors as formatted messages; each constructor stands
    for one message.  [ErrParse] is whatever the lexer or parser reports and
    [ErrPanic] a run-time panic (nil dereference, slice bounds out of range). *)
Inductive error :=
| ErrParse (msg : string)
| ErrUnsupportedLiteralString  (* "Found unsupported LiteralString type %T" *)
| ErrUnsupportedFieldKind      (* "Found unsupported ObjectField.Kind, type %T" *)
| ErrComponentNotObject        (* "Expected component node type to be object" *)
| ErrUnsupportedParam          (* "Found an unsupported param AST node type: %T" *)
| ErrComponentExists (component : string)
                               (* "Component parameters for '%s' already exists" *)
| ErrComponentNotFound (component : string)
      (* "Could not find component identifier '%s' when attempting to set params" *)
| ErrObjectNotFound (id : string)   (* "Could not find object node: %s" *)
| ErrNotObject (id : string)        (* "Expected %s node type to be object" *)
| ErrUnsupportedNode                (* "Unsupported ast.Node type found" *)
| ErrPanic.

Inductive result (A : Type) :=
| Ok (a : A)
| Err (e : error).
Arguments Ok {A} a.
Arguments Err {A} e.

Notation "'try' x ← e ; k" :=
  (match e with Ok x => k | Err err => Err err end)
  (at level 10, x pattern, e at level 100, k at level 200, only parsing).

Definition componentsID : string := "components".

(** ** The locator ([visit] and its helpers)

    The Go functions thread a [**ast.Object] out-parameter; here it is the
    state [componentsObj], passed in and returned.  The [for] loops are the
    local fixpoints. *)

Definition State := option ObjectT.

(** [field.Id != nil && *field.Id == componentsID]. *)
Definition isComponentsField (field : ObjectField) : bool :=
  match FieldId field with
  | Some id => String.eqb id componentsID
  | None => false
  end.

Fixpoint visit (node : Node) (componentsObj : State) {struct node} : result State :=
  match node with
  | Object (mkObject _ Fields _) =>
      (fix loop (fs : list ObjectField) (componentsObj : State) : result State :=
         match fs with
         | [] => Ok componentsObj
         | field :: fs' =>
             if isComponentsField field then
               match FieldExpr2 field with
               | Object c => Ok (Some c)
               | _ => Err (ErrNotObject componentsID)
               end
             else
               try componentsObj ← visitObjectField field componentsObj;
               loop fs' componentsObj
         end) Fields componentsObj
  | Apply Target Positional Named _ _ =>
      try componentsObj ←
        (fix loop (args : list Node) (componentsObj : State) : result State :=
           match args with
           | [] => Ok componentsObj
           | arg :: args' =>
               try componentsObj ← visit arg componentsObj; loop args' componentsObj
           end) Positional componentsObj;
      try componentsObj ←
        (fix loop (args : list (string * Node)) (componentsObj : State) : result State :=
           match args with
           | [] => Ok componentsObj
           | (_, arg) :: args' =>
               try componentsObj ← visit arg componentsObj; loop args' componentsObj
           end) Named componentsObj;
      visit Target componentsObj
  | ApplyBrace Left Right =>
      try componentsObj ← visit Left componentsObj;
      visit Right componentsObj
  | Array Elements _ =>
      (fix loop (es : list Node) (componentsObj : State) : result State :=
         match es with
         | [] => Ok componentsObj
         | element :: es' =>
             try componentsObj ← visit element componentsObj; loop es' componentsObj
         end) Elements componentsObj
  | ArrayComp Body _ Spec =>
      try componentsObj ← visitCompSpec Spec componentsObj;
      visit Body componentsObj
  | Assert Cond Message Rest =>
      try componentsObj ← visit Cond componentsObj;
      try componentsObj ← visit Message componentsObj;
      visit Rest componentsObj
  | Binary Left _ Right =>
      try componentsObj ← visit Left componentsObj;
      visit Right componentsObj
  | Conditional Cond BranchTrue BranchFalse =>
      try componentsObj ← visit BranchFalse componentsObj;
      try componentsObj ← visit BranchTrue componentsObj;
      visit Cond componentsObj
  | Error Expr => visit Expr componentsObj
  | Function fn => visitFunction fn componentsObj
  | Index Target Index_ _ =>
      try componentsObj ← visit Target componentsObj;
      visit Index_ componentsObj
  | Slice Target BeginIndex EndIndex Step =>
      try componentsObj ← visit Target componentsObj;
      try componentsObj ← visit BeginIndex componentsObj;
      try componentsObj ← visit EndIndex componentsObj;
      visit Step componentsObj
  | Local Binds Body =>
      try componentsObj ←
        (fix loop (bs : list LocalBind) (componentsObj : State) : result State :=
           match bs with
           | [] => Ok componentsObj
           | bind :: bs' =>
               try componentsObj ← visitLocalBind bind componentsObj;
               loop bs' componentsObj
           end) Binds componentsObj;
      visit Body componentsObj
  | DesugaredObject Asserts Fields =>
      try componentsObj ←
        (fix loop (asserts : list Node) (componentsObj : State) : result State :=
           match asserts with
           | [] => Ok componentsObj
           | assert :: asserts' =>
               try componentsObj ← visit assert componentsObj;
               loop asserts' componentsObj
           end) Asserts componentsObj;
      (fix loop (fs : list DesugaredObjectField) (componentsObj : State) : result State :=
         match fs with
         | [] => Ok componentsObj
         | field :: fs' =>
             try componentsObj ← visitDesugaredObjectField field componentsObj;
             loop fs' componentsObj
         end) Fields componentsObj
  | ObjectComp Fields _ Spec =>
      try componentsObj ←
        (fix loop (fs : list ObjectField) (componentsObj : State) : result State :=
           match fs with
           | [] => Ok componentsObj
           | field :: fs' =>
               try componentsObj ← visitObjectField field componentsObj;
               loop fs' componentsObj
           end) Fields componentsObj;
      visitCompSpec Spec componentsObj
  | SuperIndex Index_ _ => visit Index_ componentsObj
  | InSuper Index_ => visit Index_ componentsObj
  | Unary _ Expr => visit Expr componentsObj
  | Import _ | ImportStr _ | Dollar | LiteralBoolean _ | LiteralNull
  | LiteralNumber _ _ | LiteralString _ _ _ | Self | Var _ => Ok componentsObj
  | Nil => Ok componentsObj
  | ObjectComprehensionSimple _ _ _ _ => Err ErrUnsupportedNode
  end

with visitFunction (n : FunctionT) (componentsObj : State) {struct n} : result State :=
  match n with
  | mkFunction (mkParameters _ Optional) _ Body =>
      try componentsObj ←
        (fix loop (ps : list NamedParameter) (componentsObj : State) : result State :=
           match ps with
           | [] => Ok componentsObj
           | mkNamedParameter _ DefaultArg :: ps' =>
               try componentsObj ← visit DefaultArg componentsObj;
               loop ps' componentsObj
           end) Optional componentsObj;
      visit Body componentsObj
  end

with visitCompSpec (node : ForSpec) (componentsObj : State) {struct node} : result State :=
  match node with
  | mkForSpec _ Expr Conditions Outer =>
      try componentsObj ←
        match Outer with
        | Some outer => visitCompSpec outer componentsObj
        | None => Ok componentsObj
        end;
      try componentsObj ←
        (fix loop (cs : list IfSpec) (componentsObj : State) : result State :=
           match cs with
           | [] => Ok componentsObj
           | mkIfSpec e :: cs' =>
               try componentsObj ← visit e componentsObj; loop cs' componentsObj
           end) Conditions componentsObj;
      visit Expr componentsObj
  end

with visitObjectField (node : ObjectField) (componentsObj : State) {struct node}
  : result State :=
  match node with
  | mkObjectField _ _ _ _ Method Expr1 _ Params _ Expr2 Expr3 =>
      try componentsObj ←
        match Method with
        | Some m => visitFunction m componentsObj
        | None => Ok componentsObj
        end;
      try componentsObj ←
        match Params with
        | Some (mkParameters _ Optional) =>
            (fix loop (ps : list NamedParameter) (componentsObj : State) : result State :=
               match ps with
               | [] => Ok componentsObj
               | mkNamedParameter _ DefaultArg :: ps' =>
                   try componentsObj ← visit DefaultArg componentsObj;
                   loop ps' componentsObj
               end) Optional componentsObj
        | None => Ok componentsObj
        end;
      try componentsObj ← visit Expr1 componentsObj;
      try componentsObj ← visit Expr2 componentsObj;
      visit Expr3 componentsObj
  end

with visitDesugaredObjectField (node : DesugaredObjectField) (componentsObj : State)
  {struct node} : result State :=
  match node with
  | mkDesugaredObjectField _ Name Body _ =>
      try componentsObj ← visit Name componentsObj;
      visit Body componentsObj
  end

with visitLocalBind (node : LocalBind) (componentsObj : State) {struct node}
  : result State :=
  match node with
  | mkLocalBind _ Body Fun =>
      try componentsObj ←
        match Fun with
        | Some f => visitFunction f componentsObj
        | None => Ok componentsObj
        end;
      visit Body componentsObj
  end.

(** ** Strings ([strings.Split], [strings.Join], [fmt.Sprintf]) *)

Definition newline : string := String "010" "".
Definition dquote : string := String "034" "".

(** [strings.Split(s, "\n")]: the pieces of [s] between line feeds; one more
    piece than there are line feeds. *)
Fixpoint Split (s : string) : list string :=
  match s with
  | EmptyString => [""]
  | String c s' =>
      if Ascii.eqb c "010" then "" :: Split s'
      else match Split s' with
           | [] => [String c ""]
           | l :: ls => String c l :: ls
           end
  end.

(** [strings.Join(a, "\n")]. *)
Fixpoint Join (a : list string) : string :=
  match a with
  | [] => ""
  | [l] => l
  | l :: ls => l ++ newline ++ Join ls
  end.

(** A slice expression [a[lo:]] or [a[:hi]] panics when the bound is outside
    [0..len(a)]. Line numbers are Go [int]s; the program only adds or
    subtracts one, and a wrapped value is out of bounds as well. *)
Definition slice_to (a : list string) (hi : Z) : result (list string) :=
  if bool_decide (0 ≤ hi ≤ Z.of_nat (length a))%Z then Ok (take (Z.to_nat hi) a)
  else Err ErrPanic.

Definition slice_from (a : list string) (lo : Z) : result (list string) :=
  if bool_decide (0 ≤ lo ≤ Z.of_nat (length a))%Z then Ok (drop (Z.to_nat lo) a)
  else Err ErrPanic.

(** ** Field and parameter codec *)

Abbreviation Params := (gmap string string).

Definition getFieldID (field : ObjectField) : result string :=
  match FieldKind field with
  | ObjectFieldStr =>
      match FieldExpr1 field with
      | LiteralString Value Kind _ =>
          match Kind with
          | StringSingle | StringDouble => Ok Value
          | _ => Err ErrUnsupportedLiteralString
          end
      | _ => Err ErrPanic
      end
  | ObjectFieldID =>
      match FieldId field with
      | Some id => Ok id
      | None => Err ErrPanic
      end
  | _ => Err ErrUnsupportedFieldKind
  end.

Definition hasComponent (component : string) (field : ObjectField) : result bool :=
  try id ← getFieldID field;
  Ok (String.eqb id component).

Definition FormatBool (b : bool) : string := if b then "true" else "false".

Definition string_le (a b : string) : Prop := String.leb a b = true.
#[global] Instance string_le_dec : RelDecision string_le.
Proof. intros a b. unfold string_le. apply _. Defined.

(** [sort.Strings]: ascending in Go's byte-wise string order. *)
Definition sortStrings (keys : list string) : list string :=
  merge_sort string_le keys.

Definition spaces (indent : Z) : string :=
  fold_right (λ _ acc, String " " acc) "" (seq 0 (Z.to_nat indent)).

Definition writeParams (indent : Z) (params : Params) : string :=
  let keys := sortStrings (map fst (map_to_list params)) in
  let indentBuffer := spaces indent in
  newline ++
  (fix loop (keys : list string) : string :=
     match keys with
     | [] => ""
     | key :: rest =>
         (indentBuffer ++ key ++ ": " ++ default "" (params !! key) ++ ",")
         ++ (match rest with [] => "" | _ => newline end)
         ++ loop rest
     end) keys
  ++ newline.

Section Params.

(** The collaborators outside the repository: [astRoot component snippet]
    is go-jsonnet's [parser.Lex] followed by [parser.Parse] (the component
    name serves as file name), [FormatFloat v] is
    [strconv.FormatFloat(v, 'f', -1, 64)] and [IsASCIIIdentifier] is the
    helper of package [utils]. *)
Variable astRoot : string → string → result Node.
Variable FormatFloat : float → string.
Variable IsASCIIIdentifier : string → bool.

Definition SanitizeComponent (component : string) : string :=
  if negb (IsASCIIIdentifier component) then dquote ++ component ++ dquote
  else component.

Definition visitParamValue (param : Node) : result string :=
  match param with
  | LiteralNumber Value _ => Ok (FormatFloat Value)
  | LiteralBoolean Value => Ok (FormatBool Value)
  | LiteralString Value Kind _ =>
      match Kind with
      | StringSingle | StringDouble => Ok (dquote ++ Value ++ dquote)
      | _ => Err ErrUnsupportedLiteralString
      end
  | _ => Err ErrUnsupportedParam
  end.

(** The loop of [visitParams] over the fields of a component. *)
Fixpoint visitParamFields (fields : list ObjectField) (params : Params)
  : result Params :=
  match fields with
  | [] => Ok params
  | field :: rest =>
      match FieldId field with
      | Some key =>
          try val ← visitParamValue (FieldExpr2 field);
          visitParamFields rest (<[key := val]> params)
      | None => visitParamFields rest params
      end
  end.

Definition visitParams (component : Node) : result (Params * LocationRange) :=
  match component with
  | Object n =>
      try params ← visitParamFields (ObjFields n) ∅;
      Ok (params, ObjLoc n)
  | _ => Err ErrComponentNotObject
  end.

(** The loop of [visitAllParams] over the fields of the components object. *)
Fixpoint visitAllFields (fields : list ObjectField) (params : gmap string Params)
  : result (gmap string Params) :=
  match fields with
  | [] => Ok params
  | f :: rest =>
      try (p, _) ← visitParams (FieldExpr2 f);
      try id ← getFieldID f;
      visitAllFields rest (<[id := p]> params)
  end.

Definition visitAllParams (components : ObjectT) : result (gmap string Params) :=
  visitAllFields (ObjFields components) ∅.

Definition visitComponentsObj (component snippet : string) : result ObjectT :=
  try root ← astRoot component snippet;
  try componentsObj ← visit root None;
  match componentsObj with
  | None => Err (ErrObjectNotFound componentsID)
  | Some c => Ok c
  end.

(** *** Component parameters *)

(** The duplicate check of [appendComponent]. *)
Fixpoint checkAbsent (component : string) (fields : list ObjectField) : result unit :=
  match fields with
  | [] => Ok tt
  | field :: rest =>
      try has ← hasComponent component field;
      if has : bool then Err (ErrComponentExists component)
      else checkAbsent component rest
  end.

(** [lines = append(lines, ""); copy(lines[i+1:], lines[i:]); lines[i] = text]:
    panics unless [0 <= i <= len(lines)]. *)
Definition insertLineAt (lines : list string) (i : Z) (text : string)
  : result (list string) :=
  if bool_decide (0 ≤ i ≤ Z.of_nat (length lines))%Z
  then Ok (take (Z.to_nat i) lines ++ text :: drop (Z.to_nat i) lines)%list
  else Err ErrPanic.

Definition appendComponent (component snippet : string) (params : Params)
  : result string :=
  try componentsNode ← visitComponentsObj component snippet;
  try _ ← checkAbsent component (ObjFields componentsNode);
  let lines := Split snippet in
  let buffer :=
    ("    " ++ SanitizeComponent component ++ ": {")
    ++ writeParams 6 params
    ++ "    }," in
  let insertLine := (Line (End_ (ObjLoc componentsNode)) - 1)%Z in
  try lines ← insertLineAt lines insertLine buffer;
  Ok (Join lines).

(** The lookup loop shared by [getComponentParams] and
    [getEnvironmentParams]: the first field whose key is [component]. *)
Fixpoint findComponent (component : string) (fields : list ObjectField)
  : result (option ObjectField) :=
  match fields with
  | [] => Ok None
  | field :: rest =>
      try has ← hasComponent component field;
      if has : bool then Ok (Some field) else findComponent component rest
  end.

Definition getComponentParams (component snippet : string)
  : result (Params * LocationRange) :=
  try componentsNode ← visitComponentsObj component snippet;
  try found ← findComponent component (ObjFields componentsNode);
  match found with
  | Some field => visitParams (FieldExpr2 field)
  | None => Err (ErrComponentNotFound component)
  end.

Definition getAllComponentParams (snippet : string) : result (gmap string Params) :=
  try componentsNode ← visitComponentsObj "" snippet;
  visitAllParams componentsNode.

(** [for k, v := range currentParams { if _, ok := params[k]; !ok { params[k] = v } }]:
    the incoming map, completed by the current entries it lacks.  (The Go
    code stores them into the caller's map.) *)
Definition mergeCurrent (currentParams params : Params) : Params :=
  map_fold (λ k v acc, match acc !! k with Some _ => acc | None => <[k := v]> acc end)
           params currentParams.

(** [strings.Join(lines[:b], "\n") + text + strings.Join(lines[e-1:], "\n")]. *)
Definition spliceLines (snippet : string) (loc : LocationRange) (text : string)
  : result string :=
  let lines := Split snippet in
  try head ← slice_to lines (Line (Begin loc));
  try tail ← slice_from lines (Line (End_ loc) - 1);
  Ok (Join head ++ text ++ Join tail).

Definition setComponentParams (component snippet : string) (params : Params)
  : result string :=
  try (currentParams, loc) ← getComponentParams component snippet;
  let params := mergeCurrent currentParams params in
  let paramsSnippet := writeParams 6 params in
  spliceLines snippet loc paramsSnippet.

(** *** Environment parameters *)

Definition getEnvironmentParams (component snippet : string)
  : result (Params * LocationRange * bool) :=
  try n ← visitComponentsObj component snippet;
  try found ← findComponent component (ObjFields n);
  match found with
  | Some f =>
      try (params, loc) ← visitParams (FieldExpr2 f);
      Ok (params, loc, true)
  | None =>
      let e := End_ (ObjLoc n) in
      let loc := {| Begin := {| Line := Line e - 1; Column := Column e |};
                    End_ := {| Line := Line e; Column := Column e |} |} in
      Ok (∅, loc, false)
  end.

Definition getAllEnvironmentParams (snippet : string) : result (gmap string Params) :=
  try componentsNode ← visitComponentsObj "" snippet;
  visitAllParams componentsNode.

Definition setEnvironmentParams (component snippet : string) (params : Params)
  : result string :=
  try (currentParams, loc, hasComponent) ← getEnvironmentParams component snippet;
  let params := mergeCurrent currentParams params in
  let paramsSnippet :=
    if negb hasComponent then
      (newline ++ "    " ++ SanitizeComponent component ++ " +: {")
      ++ writeParams 6 params
      ++ ("    }," ++ newline)
    else writeParams 6 params in
  spliceLines snippet loc paramsSnippet.

End Params.

(** ** A reader for the parameter-file fragment of Jsonnet *)

(** Modelled from the spec: the parser "producing the Node/LocationRange
    model of §3 from raw text" is go-jsonnet, a library that is not among
    the sources.  This reader covers the fragment the parameter files are
    written in: objects with identifier or quoted keys (with [:], [::],
    [:::] and the [+] sugar), arrays, number, string, boolean and null
    literals, variables, [self], [$], [local] bindings, [import],
    [importstr], field selection, object application [e { ... }], unary
    operators, binary [+] and [-], parentheses and the three comment forms.
    Any other construct is reported as [ErrParse].  Lines and columns count
    from 1; a token ends at the position after its last character, and an
    object spans from its opening to its closing brace.  The theorems
    below hold for any parser; the reader serves to run the operations on
    concrete documents. *)
Module Jsonnet.

Inductive tokenKind :=
| tokenBraceL | tokenBraceR | tokenBracketL | tokenBracketR | tokenComma
| tokenDollar | tokenDot | tokenParenL | tokenParenR | tokenSemicolon
| tokenIdentifier | tokenNumber | tokenOperator
| tokenStringDouble | tokenStringSingle
| tokenFalse | tokenImport | tokenImportStr | tokenLocal | tokenNull
| tokenSelf | tokenTrue | tokenKeyword
| tokenEndOfFile.

Record token := mkToken { kind : tokenKind; data : string; loc : LocationRange }.

Definition charIn (c : ascii) (lo hi : ascii) : bool :=
  (nat_of_ascii lo <=? nat_of_ascii c)%nat && (nat_of_ascii c <=? nat_of_ascii hi)%nat.

Definition isDigit (c : ascii) : bool := charIn c "0" "9".
Definition isIdentifierFirst (c : ascii) : bool :=
  charIn c "a" "z" || charIn c "A" "Z" || Ascii.eqb c "_".
Definition isIdentifier (c : ascii) : bool := isIdentifierFirst c || isDigit c.
Definition isSymbol (c : ascii) : bool :=
  existsb (Ascii.eqb c)
    ["!"; "$"; ":"; "~"; "+"; "-"; "&"; "|"; "^"; "="; "<"; ">"; "*"; "/"; "%"]%char.
Definition isWhitespace (c : ascii) : bool :=
  existsb (Ascii.eqb c) [" "; "009"; "013"]%char.

(** The longest prefix of [s] whose characters satisfy [p], and the rest. *)
Fixpoint span (p : ascii → bool) (s : string) : string * string :=
  match s with
  | String c s' =>
      if p c then let '(a, b) := span p s' in (String c a, b) else ("", s)
  | EmptyString => ("", "")
  end.

(** The position after reading the characters of [s] from [pos]. *)
Fixpoint advance (pos : Location) (s : string) : Location :=
  match s with
  | EmptyString => pos
  | String c s' =>
      advance (if Ascii.eqb c "010"
               then {| Line := Line pos + 1; Column := 1 |}
               else {| Line := Line pos; Column := Column pos + 1 |}) s'
  end.

(** The text up to the closing quote [q] (a backslash keeps the next
    character) and the text after the quote. *)
Fixpoint untilQuote (q : ascii) (s : string) : option (string * string) :=
  match s with
  | EmptyString => None
  | String c s' =>
      if Ascii.eqb c q then Some ("", s')
      else if Ascii.eqb c "\" then
        match s' with
        | String c' s'' =>
            '(a, b) ← untilQuote q s''; Some (String c (String c' a), b)
        | EmptyString => None
        end
      else '(a, b) ← untilQuote q s'; Some (String c a, b)
  end.

(** The text of a block comment up to and including its end marker, and
    the text after it. *)
Fixpoint untilCommentEnd (s : string) : option (string * string) :=
  match s with
  | String "*" (String "/" s') => Some ("*/", s')
  | String c s' => '(a, b) ← untilCommentEnd s'; Some (String c a, b)
  | EmptyString => None
  end.

Definition keywordKind (id : string) : tokenKind :=
  if String.eqb id "false" then tokenFalse
  else if String.eqb id "import" then tokenImport
  else if String.eqb id "importstr" then tokenImportStr
  else if String.eqb id "local" then tokenLocal
  else if String.eqb id "null" then tokenNull
  else if String.eqb id "self" then tokenSelf
  else if String.eqb id "true" then tokenTrue
  else if existsb (String.eqb id)
            ["assert"; "else"; "error"; "for"; "function"; "if"; "in";
             "super"; "tailstrict"; "then"]
  then tokenKeyword
  else tokenIdentifier.

(** The text of a number at the head of [s]: digits, an optional fraction
    and an optional exponent. *)
Definition lexNumber (s : string) : option (string * string) :=
  let '(int, rest) :=
    match s with
    | String "0" s' => ("0", s')
    | _ => span isDigit s
    end in
  '(frac, rest) ←
    match rest with
    | String "." r =>
        let '(ds, r') := span isDigit r in
        if String.eqb ds "" then None else Some ("." ++ ds, r')
    | _ => Some ("", rest)
    end;
  '(exp, rest) ←
    match rest with
    | String e r =>
        if Ascii.eqb e "e" || Ascii.eqb e "E" then
          let '(sign, r1) :=
            match r with
            | String sg r1 =>
                if Ascii.eqb sg "+" || Ascii.eqb sg "-"
                then (String sg "", r1) else ("", r)
            | EmptyString => ("", r)
            end in
          let '(ds, r2) := span isDigit r1 in
          if String.eqb ds "" then None else Some (String e sign ++ ds, r2)
        else Some ("", rest)
    | EmptyString => Some ("", rest)
    end;
  Some (int ++ frac ++ exp, rest).

Definition operators : list string :=
  [":"; "::"; ":::"; "+:"; "+::"; "+:::"; "+"; "-"; "="; "!"; "~"].

(** The run of operator characters at the head of [s], stopping before
    the start of a comment. *)
Fixpoint spanOperator (s : string) : string * string :=
  match s with
  | String "/" (String "/" _) | String "/" (String "*" _) => ("", s)
  | String c s' =>
      if isSymbol c then let '(a, b) := spanOperator s' in (String c a, b)
      else ("", s)
  | EmptyString => ("", "")
  end.

Definition emit (k : tokenKind) (d : string) (b e : Location) : token :=
  {| kind := k; data := d; loc := {| Begin := b; End_ := e |} |}.

Definition symbolKind (c : ascii) : option tokenKind :=
  if Ascii.eqb c "{" then Some tokenBraceL
  else if Ascii.eqb c "}" then Some tokenBraceR
  else if Ascii.eqb c "[" then Some tokenBracketL
  else if Ascii.eqb c "]" then Some tokenBracketR
  else if Ascii.eqb c "," then Some tokenComma
  else if Ascii.eqb c "." then Some tokenDot
  else if Ascii.eqb c "(" then Some tokenParenL
  else if Ascii.eqb c ")" then Some tokenParenR
  else if Ascii.eqb c ";" then Some tokenSemicolon
  else None.

Fixpoint lex (fuel : nat) (s : string) (pos : Location) : result (list token) :=
  match fuel with
  | O => Err (ErrParse "input too long")
  | S fuel =>
      match s with
      | EmptyString => Ok [emit tokenEndOfFile "" pos pos]
      | String c s' =>
          let one := String c "" in
          if isWhitespace c || Ascii.eqb c "010" then lex fuel s' (advance pos one)
          else if Ascii.eqb c "#" then
            let '(text, rest) := span (λ x, negb (Ascii.eqb x "010")) s in
            lex fuel rest (advance pos text)
          else match s with
          | String "/" (String "/" _) =>
              let '(text, rest) := span (λ x, negb (Ascii.eqb x "010")) s in
              lex fuel rest (advance pos text)
          | String "/" (String "*" body) =>
              match untilCommentEnd body with
              | Some (text, rest) => lex fuel rest (advance pos ("/*" ++ text))
              | None => Err (ErrParse "Multi-line comment has no terminating */")
              end
          | _ =>
          match symbolKind c with
          | Some k =>
              let e := advance pos one in
              try ts ← lex fuel s' e; Ok (emit k one pos e :: ts)
          | None =>
          if isDigit c then
            match lexNumber s with
            | Some (text, rest) =>
                let e := advance pos text in
                try ts ← lex fuel rest e; Ok (emit tokenNumber text pos e :: ts)
            | None => Err (ErrParse "Couldn't lex number")
            end
          else if Ascii.eqb c "034" || Ascii.eqb c "'" then
            match untilQuote c s' with
            | Some (text, rest) =>
                let b := advance pos one in
                let e := advance b text in
                let k := if Ascii.eqb c "'" then tokenStringSingle
                         else tokenStringDouble in
                try ts ← lex fuel rest (advance e one); Ok (emit k text b e :: ts)
            | None => Err (ErrParse "Unterminated String")
            end
          else if isIdentifierFirst c then
            let '(text, rest) := span isIdentifier s in
            let e := advance pos text in
            try ts ← lex fuel rest e; Ok (emit (keywordKind text) text pos e :: ts)
          else if isSymbol c then
            let '(text, rest) := spanOperator s in
            let e := advance pos text in
            if String.eqb text "$" then
              try ts ← lex fuel rest e; Ok (emit tokenDollar text pos e :: ts)
            else if existsb (String.eqb text) operators then
              try ts ← lex fuel rest e; Ok (emit tokenOperator text pos e :: ts)
            else Err (ErrParse "operator outside the fragment")
          else Err (ErrParse "Could not lex the character")
          end
          end
      end
  end.

Definition Lex (snippet : string) : result (list token) :=
  lex (S (String.length snippet)) snippet {| Line := 1; Column := 1 |}.

(** *** Numbers ([strconv.ParseFloat], [strconv.FormatFloat]) *)

Definition digitsToZ (ds : string) : Z :=
  fold_left (λ acc c, acc * 10 + (Z.of_nat (nat_of_ascii c) - 48))%Z
            (list_ascii_of_string ds) 0%Z.

Definition ZToDigits (n : Z) : string :=
  match n with
  | Zpos p => NilEmpty.string_of_uint (Pos.to_uint p)
  | _ => "0"
  end.

(** The binary64 number nearest to [M * 10^E] (ties to even); [None] when
    it is out of range. *)
Definition nearestFloat (M E : Z) : option float :=
  let sf :=
    if (0 <=? E)%Z then binary_normalize prec emax (M * 10 ^ E) 0 false
    else
      let D := (10 ^ (- E))%Z in
      let s := (Z.log2 D + 66)%Z in
      let q := (M * 2 ^ s / D)%Z in
      let sticky := if ((M * 2 ^ s) mod D =? 0)%Z then 0%Z else 1%Z in
      binary_normalize prec emax (2 * q + sticky) (- s - 1) false in
  match sf with
  | S754_infinity _ | S754_nan => None
  | _ => Some (SF2Prim sf)
  end.

(** [strconv.ParseFloat(text, 64)] on the text of a number token. *)
Definition ParseFloat (text : string) : option float :=
  let '(int, rest) := span isDigit text in
  let '(frac, rest) :=
    match rest with
    | String "." r => span isDigit r
    | _ => ("", rest)
    end in
  let exp :=
    match rest with
    | String _ (String "-" ds) => (- digitsToZ ds)%Z
    | String _ (String "+" ds) => digitsToZ ds
    | String _ ds => digitsToZ ds
    | EmptyString => 0%Z
    end in
  nearestFloat (digitsToZ (int ++ frac)) (exp - Z.of_nat (String.length frac)).

Definition zeros (n : Z) : string :=
  fold_right (λ _ acc, String "0" acc) "" (seq 0 (Z.to_nat n)).

(** [c * 10^q] in the ['f'] format, for [c > 0] not divisible by ten
    when [q < 0]. *)
Definition fixedPoint (c q : Z) : string :=
  let ds := ZToDigits c in
  let n := Z.of_nat (String.length ds) in
  if (0 <=? q)%Z then ds ++ zeros q
  else if (- q <? n)%Z
  then substring 0 (Z.to_nat (n + q)) ds ++ "."
       ++ substring (Z.to_nat (n + q)) (Z.to_nat (- q)) ds
  else "0." ++ zeros (- q - n) ++ ds.

(** The shortest decimal that reads back as [m * 2^e]: the first
    exponent [q], counting down, for which a multiple of [10^q] lies in
    the rounding interval of the number, and the multiple nearest to it. *)
Fixpoint shortest (fuel : nat) (m e q : Z) : string :=
  match fuel with
  | O => ""
  | S fuel =>
      let boundary := ((m =? 2 ^ 52) && (-1074 <? e))%Z in
      let lo4 := (if boundary then 4 * m - 1 else 4 * m - 2)%Z in
      let hi4 := (4 * m + 2)%Z in
      let A := (2 ^ Z.max (e - 2) 0 * 10 ^ Z.max (- q) 0)%Z in
      let B := (2 ^ Z.max (2 - e) 0 * 10 ^ Z.max q 0)%Z in
      let inclusive := Z.even m in
      let cmin := if inclusive then (- ((- (lo4 * A)) / B))%Z
                  else (lo4 * A / B + 1)%Z in
      let cmax := if inclusive then (hi4 * A / B)%Z
                  else (- ((- (hi4 * A)) / B) - 1)%Z in
      if (cmin <=? cmax)%Z then
        let c1 := (4 * m * A / B)%Z in
        let r2 := (2 * (4 * m * A - c1 * B))%Z in
        let c := if (r2 <? B)%Z then c1
                 else if (B <? r2)%Z then (c1 + 1)%Z
                 else if Z.even c1 then c1 else (c1 + 1)%Z in
        fixedPoint (Z.max cmin (Z.min cmax c)) q
      else shortest fuel m e (q - 1)
  end.

(** [strconv.FormatFloat(v, 'f', -1, 64)]. *)
Definition FormatFloat (v : float) : string :=
  match Prim2SF v with
  | S754_nan => "NaN"
  | S754_infinity s => if s then "-Inf" else "+Inf"
  | S754_zero s => if s then "-0" else "0"
  | S754_finite s m e =>
      let q0 := (Z.log2 (Zpos m * 2 ^ Z.max e 0) / 3 + 2)%Z in
      (if s then "-" else "")
      ++ shortest (Z.to_nat (q0 + 1100)) (Zpos m) e q0
  end.

(** Modelled from the spec: [utils.IsASCIIIdentifier] is not among the
    sources; the spec's "valid bare identifier (ASCII identifier rule)":
    a letter or underscore followed by letters, digits and underscores. *)
Definition IsASCIIIdentifier (s : string) : bool :=
  match s with
  | String c s' => isIdentifierFirst c && forallb isIdentifier (list_ascii_of_string s')
  | EmptyString => false
  end.

(** *** The parser *)

Definition isOperator (t : token) (op : string) : bool :=
  match kind t with
  | tokenOperator => String.eqb (data t) op
  | _ => false
  end.

Definition unexpected {A} (t : token) : result A :=
  Err (ErrParse ("Unexpected: " ++ data t)).

(** The colons and the [+] sugar of a field operator. *)
Definition fieldOperator (op : string) : option (ObjectFieldHide * bool) :=
  if String.eqb op ":" then Some (ObjectFieldInherit, false)
  else if String.eqb op "::" then Some (ObjectFieldHidden, false)
  else if String.eqb op ":::" then Some (ObjectFieldVisible, false)
  else if String.eqb op "+:" then Some (ObjectFieldInherit, true)
  else if String.eqb op "+::" then Some (ObjectFieldHidden, true)
  else if String.eqb op "+:::" then Some (ObjectFieldVisible, true)
  else None.

Definition isKeyStart (k : tokenKind) : bool :=
  match k with
  | tokenIdentifier | tokenStringDouble | tokenStringSingle => true
  | _ => false
  end.

(** The fields the parser builds for [id: body] and for a quoted key
    (['key': body], or with double quotes): the key of the first is the
    identifier [Id], that of the second the literal [Expr1], its [Id]
    being nil. *)
Definition fieldID (hide : ObjectFieldHide) (plusSugar : bool) (id : string)
    (body : Node) : ObjectField :=
  mkObjectField ObjectFieldID hide plusSugar false None Nil (Some id) None false
                body Nil.

Definition fieldStr (hide : ObjectFieldHide) (plusSugar : bool)
    (kd : LiteralStringKind) (key : string) (body : Node) : ObjectField :=
  mkObjectField ObjectFieldStr hide plusSugar false None
                (LiteralString key kd "") None None false body Nil.

(** [parse] reads an expression at the outermost precedence, [parseUnary]
    an operand with its unary operators and postfix forms,
    [parsePostfix] and [parseBinary] continue a left operand,
    [parseObjectRemainder] reads the fields after an opening brace,
    [parseArray] the elements after an opening bracket and [parseBinds]
    the bindings after [local]. *)
Fixpoint parse (fuel : nat) (ts : list token) {struct fuel}
  : result (Node * list token) :=
  match fuel with
  | O => Err (ErrParse "expression too deep")
  | S fuel =>
      match ts with
      | [] => Err (ErrParse "Unexpected end of file")
      | t :: rest =>
          match kind t with
          | tokenLocal =>
              try (binds, rest) ← parseBinds fuel rest [];
              try (body, rest) ← parse fuel rest;
              Ok (Local binds body, rest)
          | tokenImport =>
              try (body, rest) ← parse fuel rest;
              match body with
              | LiteralString v _ _ => Ok (Import v, rest)
              | _ => Err (ErrParse "Computed imports are not allowed")
              end
          | tokenImportStr =>
              try (body, rest) ← parse fuel rest;
              match body with
              | LiteralString v _ _ => Ok (ImportStr v, rest)
              | _ => Err (ErrParse "Computed imports are not allowed")
              end
          | _ =>
              try (lhs, rest) ← parseUnary fuel ts;
              parseBinary fuel lhs rest
          end
      end
  end

with parseUnary (fuel : nat) (ts : list token) {struct fuel}
  : result (Node * list token) :=
  match fuel with
  | O => Err (ErrParse "expression too deep")
  | S fuel =>
      match ts with
      | [] => Err (ErrParse "Unexpected end of file")
      | t :: rest =>
          match kind t with
          | tokenLocal | tokenImport | tokenImportStr => parse fuel ts
          | tokenOperator =>
              if existsb (String.eqb (data t)) ["-"; "+"; "!"; "~"] then
                try (e, rest) ← parseUnary fuel rest;
                Ok (Unary (data t) e, rest)
              else Err (ErrParse ("Not a unary operator: " ++ data t))
          | tokenNumber =>
              match ParseFloat (data t) with
              | Some v => parsePostfix fuel (LiteralNumber v (data t)) rest
              | None => Err (ErrParse "Could not parse floating point number.")
              end
          | tokenStringDouble =>
              parsePostfix fuel (LiteralString (data t) StringDouble "") rest
          | tokenStringSingle =>
              parsePostfix fuel (LiteralString (data t) StringSingle "") rest
          | tokenFalse => parsePostfix fuel (LiteralBoolean false) rest
          | tokenTrue => parsePostfix fuel (LiteralBoolean true) rest
          | tokenNull => parsePostfix fuel LiteralNull rest
          | tokenSelf => parsePostfix fuel Self rest
          | tokenDollar => parsePostfix fuel Dollar rest
          | tokenIdentifier => parsePostfix fuel (Var (data t)) rest
          | tokenBraceL =>
              try (obj, rest) ← parseObjectRemainder fuel t rest [] [] true false;
              parsePostfix fuel (Object obj) rest
          | tokenBracketL =>
              match rest with
              | t' :: rest' =>
                  match kind t' with
                  | tokenBracketR => parsePostfix fuel (Array [] false) rest'
                  | _ =>
                      try (arr, rest) ← parseArray fuel rest [];
                      parsePostfix fuel arr rest
                  end
              | [] => Err (ErrParse "Unexpected end of file")
              end
          | tokenParenL =>
              try (inner, rest) ← parse fuel rest;
              match rest with
              | t' :: rest' =>
                  match kind t' with
                  | tokenParenR => parsePostfix fuel inner rest'
                  | _ => unexpected t'
                  end
              | [] => Err (ErrParse "Unexpected end of file")
              end
          | _ => unexpected t
          end
      end
  end

with parsePostfix (fuel : nat) (lhs : Node) (ts : list token) {struct fuel}
  : result (Node * list token) :=
  match fuel with
  | O => Err (ErrParse "expression too deep")
  | S fuel =>
      match ts with
      | t :: rest =>
          match kind t with
          | tokenDot =>
              match rest with
              | t' :: rest' =>
                  match kind t' with
                  | tokenIdentifier =>
                      parsePostfix fuel (Index lhs Nil (Some (data t'))) rest'
                  | _ => unexpected t'
                  end
              | [] => Err (ErrParse "Unexpected end of file")
              end
          | tokenBraceL =>
              try (obj, rest) ← parseObjectRemainder fuel t rest [] [] true false;
              parsePostfix fuel (ApplyBrace lhs (Object obj)) rest
          | tokenBracketL | tokenParenL =>
              Err (ErrParse "indexing and calls are outside the fragment")
          | _ => Ok (lhs, ts)
          end
      | [] => Ok (lhs, ts)
      end
  end

with parseBinary (fuel : nat) (lhs : Node) (ts : list token) {struct fuel}
  : result (Node * list token) :=
  match fuel with
  | O => Err (ErrParse "expression too deep")
  | S fuel =>
      match ts with
      | t :: rest =>
          match kind t with
          | tokenOperator =>
              if String.eqb (data t) ":" || String.eqb (data t) "::" then Ok (lhs, ts)
              else if String.eqb (data t) "+" || String.eqb (data t) "-" then
                try (rhs, rest) ← parseUnary fuel rest;
                parseBinary fuel (Binary lhs (data t) rhs) rest
              else Err (ErrParse ("Not a binary operator: " ++ data t))
          | tokenKeyword => Err (ErrParse "keyword outside the fragment")
          | _ => Ok (lhs, ts)
          end
      | [] => Ok (lhs, ts)
      end
  end

with parseObjectRemainder (fuel : nat) (tok : token) (ts : list token)
       (fields : list ObjectField) (literalFields : list string)
       (first gotComma : bool) {struct fuel}
  : result (ObjectT * list token) :=
  match fuel with
  | O => Err (ErrParse "expression too deep")
  | S fuel =>
      match ts with
      | [] => Err (ErrParse "Unexpected end of file")
      | next :: rest =>
          let '(next, rest, gotComma) :=
            match kind next, rest with
            | tokenComma, next' :: rest' =>
                if negb gotComma && negb first then (next', rest', true)
                else (next, rest, gotComma)
            | _, _ => (next, rest, gotComma)
            end in
          match kind next with
          | tokenBraceR =>
              Ok (mkObject {| Begin := Begin (loc tok); End_ := End_ (loc next) |}
                           fields gotComma, rest)
          | _ =>
              if negb gotComma && negb first
              then Err (ErrParse "Expected a comma before next field.")
              else if isKeyStart (kind next) then
                let field hide plusSugar body :=
                  match kind next with
                  | tokenIdentifier => fieldID hide plusSugar (data next) body
                  | tokenStringDouble =>
                      fieldStr hide plusSugar StringDouble (data next) body
                  | _ => fieldStr hide plusSugar StringSingle (data next) body
                  end in
                match rest with
                | op :: rest =>
                    match kind op, fieldOperator (data op) with
                    | tokenOperator, Some (hide, plusSugar) =>
                        if existsb (String.eqb (data next)) literalFields
                        then Err (ErrParse ("Duplicate field: " ++ data next))
                        else
                          try (body, rest) ← parse fuel rest;
                          parseObjectRemainder fuel tok rest
                            (fields ++ [field hide plusSugar body])%list
                            (data next :: literalFields) false false
                    | _, _ => unexpected op
                    end
                | [] => Err (ErrParse "Unexpected end of file")
                end
              else unexpected next
          end
      end
  end

with parseArray (fuel : nat) (ts : list token) (elements : list Node) {struct fuel}
  : result (Node * list token) :=
  match fuel with
  | O => Err (ErrParse "expression too deep")
  | S fuel =>
      try (element, rest) ← parse fuel ts;
      let elements := (elements ++ [element])%list in
      match rest with
      | t :: rest' =>
          match kind t, rest' with
          | tokenBracketR, _ => Ok (Array elements false, rest')
          | tokenComma, t' :: rest'' =>
              match kind t' with
              | tokenBracketR => Ok (Array elements true, rest'')
              | _ => parseArray fuel rest' elements
              end
          | tokenKeyword, _ => Err (ErrParse "keyword outside the fragment")
          | _, _ => Err (ErrParse "Expected a comma before next array element.")
          end
      | [] => Err (ErrParse "Unexpected end of file")
      end
  end

with parseBinds (fuel : nat) (ts : list token) (binds : list LocalBind) {struct fuel}
  : result (list LocalBind * list token) :=
  match fuel with
  | O => Err (ErrParse "expression too deep")
  | S fuel =>
      match ts with
      | var :: eq :: rest =>
          if negb (match kind var with tokenIdentifier => true | _ => false end)
          then unexpected var
          else if existsb (λ b, let 'mkLocalBind v _ _ := b in String.eqb v (data var))
                          binds
          then Err (ErrParse ("Duplicate local var: " ++ data var))
          else if negb (isOperator eq "=") then unexpected eq
          else
            try (body, rest) ← parse fuel rest;
            let binds := (binds ++ [mkLocalBind (data var) body None])%list in
            match rest with
            | delim :: rest' =>
                match kind delim with
                | tokenSemicolon => Ok (binds, rest')
                | tokenComma => parseBinds fuel rest' binds
                | _ => unexpected delim
                end
            | [] => Err (ErrParse "Unexpected end of file")
            end
      | _ => Err (ErrParse "Unexpected end of file")
      end
  end.

Definition Parse (t : list token) : result Node :=
  try (expr, rest) ← parse (3 * length t + 3) t;
  match rest with
  | [eof] =>
      match kind eof with
      | tokenEndOfFile => Ok expr
      | _ => Err (ErrParse ("Did not expect: " ++ data eof))
      end
  | next :: _ => Err (ErrParse ("Did not expect: " ++ data next))
  | [] => Err (ErrParse "Unexpected end of file")
  end.

(** [astRoot] of params.go; the component name only labels the locations
    as their file name, which the model does not keep. *)
Definition astRoot (component snippet : string) : result Node :=
  try tokens ← Lex snippet;
  Parse tokens.

End Jsonnet.

(** ** The parameter files the manager generates *)

(** [genComponentParamsContent] of metadata/manager.go: the initial
    components/params file. *)
Definition genComponentParamsContent : string :=
  "{" ++ newline ++
  "  global: {" ++ newline ++
  String "009" "// User-defined global parameters; accessible to all component and environments, Ex:" ++ newline ++
  String "009" "// replicas: 4," ++ newline ++
  "  }," ++ newline ++
  "  components: {" ++ newline ++
  "    // Component-level parameters, defined initially from 'ks prototype use ...'" ++ newline ++
  "    // Each object below should correspond to a component in the components/ directory" ++ newline ++
  "  }," ++ newline ++
  "}" ++ newline.

(** [generateParamsData] of the environment manager: the initial parameter
    file of an environment. *)
Definition generateParamsData (componentParamsPath : string) : string :=
  "local params = import " ++ dquote ++ componentParamsPath ++ dquote ++ ";" ++ newline ++
  "params + {" ++ newline ++
  "  components +: {" ++ newline ++
  "    // Insert component parameter overrides here. Ex:" ++ newline ++
  "    // guestbook +: {" ++ newline ++
  "    //   name: " ++ dquote ++ "guestbook-dev" ++ dquote ++ "," ++ newline ++
  "    //   replicas: params.global.replicas," ++ newline ++
  "    // }," ++ newline ++
  "  }," ++ newline ++
  "}" ++ newline.

(** The operations over the reader of module [Jsonnet]. *)
Module Run.
Definition visitComponentsObj := visitComponentsObj Jsonnet.astRoot.
Definition appendComponent :=
  appendComponent Jsonnet.astRoot Jsonnet.IsASCIIIdentifier.
Definition getComponentParams :=
  getComponentParams Jsonnet.astRoot Jsonnet.FormatFloat.
Definition getAllComponentParams :=
  getAllComponentParams Jsonnet.astRoot Jsonnet.FormatFloat.
Definition setComponentParams :=
  setComponentParams Jsonnet.astRoot Jsonnet.FormatFloat.
Definition getEnvironmentParams :=
  getEnvironmentParams Jsonnet.astRoot Jsonnet.FormatFloat.
Definition setEnvironmentParams :=
  setEnvironmentParams Jsonnet.astRoot Jsonnet.FormatFloat Jsonnet.IsASCIIIdentifier.
End Run.

(** ** Definitions used in the statements *)

(** The descent into a run of fields none of which is the components field:
    the loop of [visit] on an [Object] as long as no field matches. *)
Fixpoint visitObjectFields (fs : list ObjectField) (componentsObj : State)
  : result State :=
  match fs with
  | [] => Ok componentsObj
  | field :: fs' =>
      try componentsObj ← visitObjectField field componentsObj;
      visitObjectFields fs' componentsObj
  end.

(** A field with its value replaced. *)
Definition setFieldExpr2 (f : ObjectField) (e : Node) : ObjectField :=
  let 'mkObjectField k h ss ms m e1 id ps tc _ e3 := f in
  mkObjectField k h ss ms m e1 id ps tc e e3.

(** *** Documents *)

Definition quotedComponentsDoc : string :=
  "{ " ++ dquote ++ "components" ++ dquote ++ ": { foo: { a: 1 } } }".

Definition plainComponentsDoc : string :=
  "{ components: { foo: { a: 1 } } }".


Definition quotedParamDoc : string :=
  "{ components: { foo: { " ++ dquote ++ "k" ++ dquote ++ ": [1], a: 1 } } }".

Definition arrayParamDoc : string :=
  "{ components: { foo: { a: 1, k: [1] } } }".


(** The range [getEnvironmentParams] returns for a component that has no
    entry: from the line before the end of the components object to its
    end. *)
Definition absentLoc (n : ObjectT) : LocationRange :=
  let e := End_ (ObjLoc n) in
  {| Begin := {| Line := Line e - 1; Column := Column e |};
     End_ := {| Line := Line e; Column := Column e |} |}.

Definition environmentDoc : string :=
  generateParamsData "../../components/params.libsonnet".

(** A components file with one component, one line per parameter. *)
Definition fooDoc : string :=
  "{" ++ newline ++
  "  components: {" ++ newline ++
  "    foo: {" ++ newline ++
  "      a: 1," ++ newline ++
  "      b: 2," ++ newline ++
  "    }," ++ newline ++
  "  }," ++ newline ++
  "}" ++ newline.

(** The error of [getComponentParams] for a component that has no entry. *)
Definition isNotFound (e : error) : bool :=
  match e with ErrComponentNotFound _ => true | _ => false end.

(** The one-line document of the spec's concrete scenario. *)
Definition oneLineDoc : string :=
  "{ components: { foo: { replicas: 1, name: " ++ dquote ++ "a" ++ dquote ++ " } } }".

(** A components file whose components object closes on the line that
    holds its entries. *)
Definition sameLineDoc : string :=
  "{" ++ newline ++
  "  components: { foo: { a: 1 } }," ++ newline ++
  "}" ++ newline.



(** *** Lines *)

Fixpoint noNewline (s : string) : bool :=
  match s with
  | EmptyString => true
  | String c s' => negb (Ascii.eqb c "010") && noNewline s'
  end.


Definition patchOpening (name : string) : string := "    " ++ name ++ " +: {".

Definition blockClosing : string := "    },".



(** The node kinds [visitParamValue] decodes. *)
Definition isScalarLiteral (n : Node) : bool :=
  match n with
  | LiteralNumber _ _ | LiteralBoolean _ | LiteralString _ _ _ => true
  | _ => false
  end.


(** *** The state of the locator *)

(** [overlay r st]: the outcome [r] of a visit from the empty state, seen
    from the state [st]: [st] survives when the visit finds nothing. *)
Definition overlay (r : result State) (st : State) : result State :=
  match r with
  | Ok None => Ok st
  | _ => r
  end.

Definition Overlays (f : State → result State) : Prop :=
  ∀ st, f st = overlay (f None) st.

(** *** Merging parameter maps (the environment manager) *)

(** [mergeParamMaps]: the loop over [overrides] stores into [base], which
    is returned.
    [for k, v := range params { base[component][k] = v }] is the inner
    fold. *)
Definition mergeParamMaps (base overrides : gmap string Params) : gmap string Params :=
  map_fold
    (λ component (params : Params) (base : gmap string Params),
       match base !! component with
       | None => <[component := params]> base
       | Some current =>
           <[component := map_fold (λ k v (cur : Params), <[k := v]> cur)
                                   current params]> base
       end)
    base overrides.

Definition isObject (n : Node) : bool :=
  match n with
  | Object _ => true
  | _ => false
  end.

Definition numberComponentsDoc : string := "{ a: 1, components: 1 }".

(** *** Reading *)

(** The values [visitParamValue] decodes: numbers, booleans and strings in
    single or double quotes. *)
Definition decodable (n : Node) : bool :=
  match n with
  | LiteralNumber _ _ | LiteralBoolean _ => true
  | LiteralString _ StringSingle _ | LiteralString _ StringDouble _ => true
  | _ => false
  end.

(** A field [visitParams] accepts: one without identifier, which it skips,
    or one whose value it decodes. *)
Definition acceptedField (f : ObjectField) : bool :=
  match FieldId f with
  | None => true
  | Some _ => decodable (FieldExpr2 f)
  end.

(** The keys of the fields whose key [getFieldID] reads. *)
Definition fieldKeys (fields : list ObjectField) : list string :=
  omap (λ f, match getFieldID f with Ok id => Some id | Err _ => None end) fields.

(** A component with a repeated parameter and a quoted one. *)
Definition repeatedParamFields : list ObjectField :=
  [Jsonnet.fieldID ObjectFieldInherit false "a" (LiteralNumber 1 "1");
   Jsonnet.fieldStr ObjectFieldInherit false StringDouble "q" (Array [] false);
   Jsonnet.fieldID ObjectFieldInherit false "a" (LiteralBoolean true)].

(** A components file with a bare and a quoted component name. *)
Definition twoComponentsDoc : string :=
  "{" ++ newline ++
  "  components: {" ++ newline ++
  "    foo: {" ++ newline ++
  "      a: 1," ++ newline ++
  "    }," ++ newline ++
  "    " ++ dquote ++ "foo-bar" ++ dquote ++ ": {" ++ newline ++
  "      b: true," ++ newline ++
  "    }," ++ newline ++
  "  }," ++ newline ++
  "}" ++ newline.

Definition twoComponentsAll : gmap string Params :=
  {[ "foo" := {[ "a" := "1" ]}; "foo-bar" := {[ "b" := "true" ]} ]}.

(** *** Rendered parameters *)

(** The line [writeParams] writes for a key, and the lines it writes for
    Params: one per key, in the order of [sortStrings]. *)
Definition renderLine (indent : Z) (params : Params) (key : string) : string :=
  spaces indent ++ key ++ ": " ++ default "" (params !! key) ++ ",".

Definition paramLines (indent : Z) (params : Params) : list string :=
  map (renderLine indent params) (sortStrings (map fst (map_to_list params))).

Definition componentOpening (name : string) : string := "    " ++ name ++ ": {".

(** Params none of whose keys and values holds a line feed. *)
Definition singleLineParams (params : Params) : Prop :=
  map_Forall (λ k v, noNewline k = true ∧ noNewline v = true) params.

(** The lines of a source with the lines from [first + 1] to [last - 1]
    replaced by [middle] (lines count from 1). *)
Definition replaceLines (snippet : string) (first last : Z) (middle : list string)
  : string :=
  Join (take (Z.to_nat first) (Split snippet) ++ middle
        ++ drop (Z.to_nat (last - 1)) (Split snippet)).

(** * Properties *)

(** ** The locator *)


Lemma visit_Object_nil loc tc st :
  visit (Object (mkObject loc [] tc)) st = Ok st.
Proof. reflexivity. Qed.

Lemma visit_Object_cons loc f fs tc st :
  visit (Object (mkObject loc (f :: fs) tc)) st =
  if isComponentsField f then
    match FieldExpr2 f with
    | Object c => Ok (Some c)
    | _ => Err (ErrNotObject componentsID)
    end
  else
    try st' ← visitObjectField f st;
    visit (Object (mkObject loc fs tc)) st'.
Proof. reflexivity. Qed.

Lemma isComponentsField_true f :
  isComponentsField f = true ↔ FieldId f = Some componentsID.
Proof.
  unfold isComponentsField. destruct (FieldId f) as [id|]; [|split; discriminate].
  rewrite String.eqb_eq. split; congruence.
Qed.

Lemma isComponentsField_false f :
  isComponentsField f = false ↔ FieldId f ≠ Some componentsID.
Proof.
  rewrite <- isComponentsField_true. destruct (isComponentsField f); split; congruence.
Qed.

(** While no field is the components field the visit of an object is the
    descent into its fields, one after the other. *)
Lemma visit_Object_app loc pre fs tc st :
  Forall (λ g, FieldId g ≠ Some componentsID) pre →
  visit (Object (mkObject loc (pre ++ fs) tc)) st =
  try st' ← visitObjectFields pre st;
  visit (Object (mkObject loc fs tc)) st'.
Proof.
  intros Hpre. revert st. induction Hpre as [|g pre Hg _ IH]; intros st; [reflexivity|].
  rewrite <- app_comm_cons, visit_Object_cons.
  apply isComponentsField_false in Hg. rewrite Hg. simpl.
  destruct (visitObjectField g st) as [st'|e]; [apply IH | reflexivity].
Qed.

(** C4, as stated, fails: the fields are taken one at a time, so the subtree
    of an earlier field is visited before a later [components] field is
    looked at.  In [{ a: { components: 1 }, components: { } }] the root has a
    direct [components] field bound to an object, yet the visit ends in the
    error raised inside [a]. *)
Lemma visit_checks_own_fields_first_counterexample :
  ¬ (∀ loc fields tc st f c,
       f ∈ fields → FieldId f = Some componentsID → FieldExpr2 f = Object c →
       ∃ c', visit (Object (mkObject loc fields tc)) st = Ok (Some c')).
Proof.
  intros H.
  pose (l0 := {| Begin := {| Line := 1; Column := 1 |};
                 End_ := {| Line := 1; Column := 2 |} |}).
  pose (inner := Object (mkObject l0
          [Jsonnet.fieldID ObjectFieldInherit false "components"
             (LiteralNumber 1 "1")] false)).
  pose (c := mkObject l0 [] false).
  pose (f := Jsonnet.fieldID ObjectFieldInherit false "components" (Object c)).
  destruct (H l0 [Jsonnet.fieldID ObjectFieldInherit false "a" inner; f]
              false None f c) as [c' Hc'].
  - set_solver.
  - reflexivity.
  - reflexivity.
  - vm_compute in Hc'. discriminate.
Qed.

(** C4, amended: the fields of an object are processed in declaration
    order.  When [f] is the first field keyed [components] by a plain
    identifier and its value is the object [c], the visit first descends
    into the fields before [f]; an error raised there is the result, and
    otherwise [c] is, whatever the descent found and whatever follows [f]. *)
Theorem visit_Object_direct_components loc pre f post tc c st :
  Forall (λ g, FieldId g ≠ Some componentsID) pre →
  FieldId f = Some componentsID →
  FieldExpr2 f = Object c →
  visit (Object (mkObject loc (pre ++ f :: post) tc)) st =
  try _ ← visitObjectFields pre st; Ok (Some c).
Proof.
  intros Hpre Hid Hval. rewrite visit_Object_app by assumption.
  destruct (visitObjectFields pre st) as [st'|e]; [|reflexivity].
  rewrite visit_Object_cons.
  apply isComponentsField_true in Hid. rewrite Hid, Hval. reflexivity.
Qed.

(** In [{ a: { components: { x: 1 } }, components: { y: 2 }, b: 3 }] the
    direct field wins over the one found below [a]. *)
Lemma visit_Object_direct_components_witness :
  let l0 := {| Begin := {| Line := 1; Column := 1 |};
               End_ := {| Line := 1; Column := 2 |} |} in
  let fld := Jsonnet.fieldID ObjectFieldInherit false in
  let cx := mkObject l0 [fld "x" (LiteralNumber 1 "1")] false in
  let cy := mkObject l0 [fld "y" (LiteralNumber 2 "2")] false in
  let a := fld "a" (Object (mkObject l0 [fld "components" (Object cx)] false)) in
  visitObjectFields [a] None = Ok (Some cx) ∧
  visit (Object (mkObject l0 ([a] ++ fld "components" (Object cy)
                                :: [fld "b" (LiteralNumber 3 "3")]) false)) None
  = Ok (Some cy).
Proof.
  intros l0 fld cx cy a. split; [reflexivity|].
  rewrite (visit_Object_direct_components l0 [a] (fld "components" (Object cy))
             [fld "b" (LiteralNumber 3 "3")] false cy None).
  - reflexivity.
  - repeat constructor. discriminate.
  - reflexivity.
  - reflexivity.
Defined.

(** The two spellings of a key are read alike by [getFieldID], which the
    stores use for the names of components. *)
Lemma getFieldID_fieldID hide sugar id body :
  getFieldID (Jsonnet.fieldID hide sugar id body) = Ok id.
Proof. reflexivity. Qed.

Lemma getFieldID_fieldStr hide sugar kd key body :
  kd = StringSingle ∨ kd = StringDouble →
  getFieldID (Jsonnet.fieldStr hide sugar kd key body) = Ok key.
Proof. intros [-> | ->]; reflexivity. Qed.

(** A document all of whose root fields are descended into, none being the
    [components] field, is searched below the root only. *)
Lemma visit_Object_no_components loc fields tc st :
  Forall (λ g, FieldId g ≠ Some componentsID) fields →
  visit (Object (mkObject loc fields tc)) st = visitObjectFields fields st.
Proof.
  intros H. rewrite <- (app_nil_r fields) at 1. rewrite visit_Object_app by assumption.
  destruct (visitObjectFields fields st); reflexivity.
Qed.


(** C8, as stated, fails: [{ "components": { foo: { a: 1 } } }] is reported
    as not found, while the same document with the plain key is located. *)
Lemma quoted_components_key_counterexample :
  Run.visitComponentsObj "foo" quotedComponentsDoc
  = Err (ErrObjectNotFound componentsID) ∧
  ∃ c, Run.visitComponentsObj "foo" plainComponentsDoc = Ok c.
Proof. split; [|eexists]; vm_compute; reflexivity. Qed.

(** C8, amended: [getFieldID] reads a plain and a quoted key as the same
    string, but the locator recognises the [components] field by its
    identifier only.  A field with a quoted key has no identifier, so it is
    descended into like any other field: a document whose root object binds
    [components] by a quoted key only, with nothing located below the
    root's fields, is reported as not found. *)
Theorem quoted_components_key_not_located
    (astRoot : string → string → result Node) component snippet
    loc pre hide sugar kd o post tc :
  kd = StringSingle ∨ kd = StringDouble →
  astRoot component snippet =
    Ok (Object (mkObject loc
          (pre ++ Jsonnet.fieldStr hide sugar kd componentsID (Object o) :: post) tc)) →
  Forall (λ g, FieldId g ≠ Some componentsID) (pre ++ post) →
  visitObjectFields
    (pre ++ Jsonnet.fieldStr hide sugar kd componentsID (Object o) :: post) None
  = Ok None →
  getFieldID (Jsonnet.fieldStr hide sugar kd componentsID (Object o))
  = getFieldID (Jsonnet.fieldID hide sugar componentsID (Object o)) ∧
  visitComponentsObj astRoot component snippet = Err (ErrObjectNotFound componentsID).
Proof.
  intros Hkd Hroot Hids Hdescent. split.
  - rewrite getFieldID_fieldStr by assumption. reflexivity.
  - unfold visitComponentsObj. rewrite Hroot.
    rewrite visit_Object_no_components, Hdescent; [reflexivity|].
    apply Forall_app in Hids as [Hpre Hpost].
    apply Forall_app. split; [assumption|].
    constructor; [discriminate | assumption].
Qed.

Lemma quoted_components_key_not_located_witness :
  let o := mkObject {| Begin := {| Line := 1; Column := 17 |};
                       End_ := {| Line := 1; Column := 34 |} |}
             [Jsonnet.fieldID ObjectFieldInherit false "foo"
                (Object (mkObject {| Begin := {| Line := 1; Column := 24 |};
                                     End_ := {| Line := 1; Column := 32 |} |}
                           [Jsonnet.fieldID ObjectFieldInherit false "a"
                              (LiteralNumber 1 "1")] false))] false in
  getFieldID (Jsonnet.fieldStr ObjectFieldInherit false StringDouble componentsID
                (Object o))
  = getFieldID (Jsonnet.fieldID ObjectFieldInherit false componentsID (Object o)) ∧
  Run.visitComponentsObj "foo" quotedComponentsDoc
  = Err (ErrObjectNotFound componentsID).
Proof.
  intros o.
  refine (quoted_components_key_not_located Jsonnet.astRoot "foo"
            quotedComponentsDoc
            {| Begin := {| Line := 1; Column := 1 |};
               End_ := {| Line := 1; Column := 36 |} |}
            [] ObjectFieldInherit false StringDouble o [] false _ _ _ _).
  - right. reflexivity.
  - vm_compute. reflexivity.
  - constructor.
  - vm_compute. reflexivity.
Defined.

(** ** Reading parameters *)


Lemma getFieldID_setFieldExpr2 f e : getFieldID (setFieldExpr2 f e) = getFieldID f.
Proof. destruct f. reflexivity. Qed.

Lemma FieldExpr2_setFieldExpr2 f e : FieldExpr2 (setFieldExpr2 f e) = e.
Proof. destruct f. reflexivity. Qed.

Section Reading.
Variable astRoot : string → string → result Node.
Variable FormatFloat : float → string.

Lemma visitParamFields_skip pre f post params :
  FieldId f = None →
  visitParamFields FormatFloat (pre ++ f :: post) params
  = visitParamFields FormatFloat (pre ++ post) params.
Proof.
  intros Hf. revert params. induction pre as [|g pre IH]; intros params; simpl.
  - rewrite Hf. reflexivity.
  - destruct (FieldId g); [|apply IH].
    destruct (visitParamValue FormatFloat (FieldExpr2 g)); [apply IH | reflexivity].
Qed.

Lemma visitParams_skip loc pre f post tc :
  FieldId f = None →
  visitParams FormatFloat (Object (mkObject loc (pre ++ f :: post) tc))
  = visitParams FormatFloat (Object (mkObject loc (pre ++ post) tc)).
Proof. intros Hf. simpl. rewrite visitParamFields_skip by assumption. reflexivity. Qed.

(** [visitAllParams] reads a component through [visitParams] and
    [getFieldID] only. *)
Lemma visitAllFields_congr cpre cf cf' cpost params :
  visitParams FormatFloat (FieldExpr2 cf) = visitParams FormatFloat (FieldExpr2 cf') →
  getFieldID cf = getFieldID cf' →
  visitAllFields FormatFloat (cpre ++ cf :: cpost) params
  = visitAllFields FormatFloat (cpre ++ cf' :: cpost) params.
Proof.
  intros Hp Hid. revert params. induction cpre as [|g cpre IH]; intros params; simpl.
  - rewrite Hp, Hid. reflexivity.
  - destruct (visitParams FormatFloat (FieldExpr2 g)) as [[p l]|]; [|reflexivity].
    destruct (getFieldID g); [apply IH | reflexivity].
Qed.

(** When the entries before [cf] are readable and differ from [component]
    the lookup reaches [cf]. *)
Lemma findComponent_app component cpre fields :
  Forall (λ g, ∃ id, getFieldID g = Ok id ∧ id ≠ component) cpre →
  findComponent component (cpre ++ fields) = findComponent component fields.
Proof.
  induction 1 as [|g cpre (id & Hid & Hne) _ IH]; [reflexivity|].
  simpl. unfold hasComponent. rewrite Hid.
  apply String.eqb_neq in Hne. rewrite Hne. exact IH.
Qed.

Lemma findComponent_here component cf cpost :
  getFieldID cf = Ok component →
  findComponent component (cf :: cpost) = Ok (Some cf).
Proof.
  intros Hid. simpl. unfold hasComponent. rewrite Hid, String.eqb_refl. reflexivity.
Qed.

End Reading.

Section ReadingClaims.
Variable astRoot : string → string → result Node.
Variable FormatFloat : float → string.

(** C10: a parameter field with a quoted key (its [Id] is nil) is left out
    of the Params that [getComponentParams], [getEnvironmentParams] and
    [getAllComponentParams] return for its component: each of them
    returns what it returns for the component without the field,
    whatever the value of the field is. *)
Theorem quoted_param_keys_omitted component snippet comps cpre cf cpost
    loc pre f post tc :
  FieldId f = None →
  visitComponentsObj astRoot component snippet = Ok comps →
  visitComponentsObj astRoot "" snippet = Ok comps →
  ObjFields comps = (cpre ++ cf :: cpost)%list →
  findComponent component (ObjFields comps) = Ok (Some cf) →
  FieldExpr2 cf = Object (mkObject loc (pre ++ f :: post) tc) →
  visitParams FormatFloat (FieldExpr2 cf) = visitParams FormatFloat (Object (mkObject loc (pre ++ post) tc)) ∧
  getComponentParams astRoot FormatFloat component snippet
  = visitParams FormatFloat (Object (mkObject loc (pre ++ post) tc)) ∧
  getEnvironmentParams astRoot FormatFloat component snippet
  = (try (p, l) ← visitParams FormatFloat (Object (mkObject loc (pre ++ post) tc));
     Ok (p, l, true)) ∧
  getAllComponentParams astRoot FormatFloat snippet
  = visitAllFields FormatFloat
      (cpre ++ setFieldExpr2 cf (Object (mkObject loc (pre ++ post) tc)) :: cpost) ∅.
Proof.
  intros Hf Hc Hall Hfields Hfind Hval.
  assert (Hskip : visitParams FormatFloat (FieldExpr2 cf)
                  = visitParams FormatFloat (Object (mkObject loc (pre ++ post) tc))).
  { rewrite Hval. apply visitParams_skip. assumption. }
  split; [exact Hskip|]. split; [|split].
  - unfold getComponentParams. rewrite Hc, Hfind. exact Hskip.
  - unfold getEnvironmentParams. rewrite Hc, Hfind, Hskip. reflexivity.
  - unfold getAllComponentParams, visitAllParams. rewrite Hall, Hfields.
    apply visitAllFields_congr.
    + rewrite FieldExpr2_setFieldExpr2. exact Hskip.
    + rewrite getFieldID_setFieldExpr2. reflexivity.
Qed.

End ReadingClaims.
(** In [{ components: { foo: { "k": [1], a: 1 } } }] the three readers
    return [{a: "1"}] for [foo]. *)
Lemma quoted_param_keys_omitted_witness :
  let l := {| Begin := {| Line := 1; Column := 22 |};
              End_ := {| Line := 1; Column := 40 |} |} in
  Run.getComponentParams "foo" quotedParamDoc = Ok ({[ "a" := "1" ]}, l) ∧
  Run.getEnvironmentParams "foo" quotedParamDoc = Ok ({[ "a" := "1" ]}, l, true) ∧
  Run.getAllComponentParams quotedParamDoc = Ok {[ "foo" := {[ "a" := "1" ]} ]}.
Proof.
  intros l.
  pose (a := Jsonnet.fieldID ObjectFieldInherit false "a" (LiteralNumber 1 "1")).
  pose (k := Jsonnet.fieldStr ObjectFieldInherit false StringDouble "k"
               (Array [LiteralNumber 1 "1"] false)).
  pose (cf := Jsonnet.fieldID ObjectFieldInherit false "foo"
                (Object (mkObject l [k; a] false))).
  pose (comps := mkObject {| Begin := {| Line := 1; Column := 15 |};
                             End_ := {| Line := 1; Column := 42 |} |} [cf] false).
  destruct (quoted_param_keys_omitted Jsonnet.astRoot Jsonnet.FormatFloat
              "foo" quotedParamDoc comps [] cf [] l [] k [a] false)
    as (_ & Hget & Henv & Hall);
    try (vm_compute; reflexivity).
  unfold Run.getComponentParams, Run.getEnvironmentParams, Run.getAllComponentParams.
  rewrite Hget, Henv, Hall. repeat split; vm_compute; reflexivity.
Defined.

(** C6, as stated, fails: in [{ components: { foo: { "k": [1], a: 1 } } }]
    the parameter ["k"] holds an array, and both readers succeed without
    it. *)
Lemma unsupported_value_rejection_counterexample :
  (∃ l, Run.getComponentParams "foo" quotedParamDoc = Ok ({[ "a" := "1" ]}, l)) ∧
  Run.getAllComponentParams quotedParamDoc = Ok {[ "foo" := {[ "a" := "1" ]} ]}.
Proof. split; [eexists|]; vm_compute; reflexivity. Qed.

Section RejectionClaim.
Variable astRoot : string → string → result Node.
Variable FormatFloat : float → string.

Lemma visitParamFields_unsupported pre f key post params :
  Forall (λ g, FieldId g = None ∨
               ∃ v, visitParamValue FormatFloat (FieldExpr2 g) = Ok v) pre →
  FieldId f = Some key →
  visitParamValue FormatFloat (FieldExpr2 f) = Err ErrUnsupportedParam →
  visitParamFields FormatFloat (pre ++ f :: post) params = Err ErrUnsupportedParam.
Proof.
  intros Hpre Hkey Hval. revert params.
  induction Hpre as [|g pre Hg _ IH]; intros params; simpl.
  - rewrite Hkey, Hval. reflexivity.
  - destruct Hg as [-> | [v Hv]]; [apply IH|].
    destruct (FieldId g); [|apply IH]. rewrite Hv. apply IH.
Qed.

Lemma visitAllFields_error cpre cf cpost e params :
  Forall (λ g, (∃ id, getFieldID g = Ok id) ∧
               ∃ p, visitParams FormatFloat (FieldExpr2 g) = Ok p) cpre →
  visitParams FormatFloat (FieldExpr2 cf) = Err e →
  visitAllFields FormatFloat (cpre ++ cf :: cpost) params = Err e.
Proof.
  intros Hpre Hcf. revert params.
  induction Hpre as [|g cpre [[id Hid] [[p l] Hp]] _ IH]; intros params; simpl.
  - rewrite Hcf. reflexivity.
  - rewrite Hp, Hid. apply IH.
Qed.

(** C6, amended: let a component hold a parameter field keyed by a plain
    identifier whose value is an array or an object, the identifier-keyed
    fields before it holding supported values, and let the entries of the
    components object before that component be readable components with
    other names.  Then [getComponentParams] on the component and
    [getAllComponentParams] both fail with the unsupported-parameter
    error.  (A field with a quoted key is skipped, whatever it holds.) *)
Theorem unsupported_param_value_rejected component snippet comps cpre cf cpost
    loc pre f key post tc :
  visitComponentsObj astRoot component snippet = Ok comps →
  visitComponentsObj astRoot "" snippet = Ok comps →
  ObjFields comps = (cpre ++ cf :: cpost)%list →
  Forall (λ g, (∃ id, getFieldID g = Ok id ∧ id ≠ component) ∧
               ∃ p, visitParams FormatFloat (FieldExpr2 g) = Ok p) cpre →
  getFieldID cf = Ok component →
  FieldExpr2 cf = Object (mkObject loc (pre ++ f :: post) tc) →
  Forall (λ g, FieldId g = None ∨
               ∃ v, visitParamValue FormatFloat (FieldExpr2 g) = Ok v) pre →
  FieldId f = Some key →
  ((∃ es c, FieldExpr2 f = Array es c) ∨ (∃ o, FieldExpr2 f = Object o)) →
  getComponentParams astRoot FormatFloat component snippet = Err ErrUnsupportedParam ∧
  getAllComponentParams astRoot FormatFloat snippet = Err ErrUnsupportedParam.
Proof.
  intros Hc Hall Hfields Hcpre Hid Hval Hpre Hkey Hkind.
  assert (Hbad : visitParamValue FormatFloat (FieldExpr2 f) = Err ErrUnsupportedParam).
  { destruct Hkind as [(es & c & ->) | (o & ->)]; reflexivity. }
  assert (Hparams : visitParams FormatFloat (FieldExpr2 cf) = Err ErrUnsupportedParam).
  { rewrite Hval. simpl.
    rewrite (visitParamFields_unsupported pre f key post) by assumption.
    reflexivity. }
  split.
  - unfold getComponentParams. rewrite Hc, Hfields.
    rewrite findComponent_app, (findComponent_here _ _ _ Hid); [exact Hparams|].
    eapply Forall_impl; [exact Hcpre|]. intros g [Hg _]. exact Hg.
  - unfold getAllComponentParams, visitAllParams. rewrite Hall, Hfields.
    apply visitAllFields_error; [|exact Hparams].
    eapply Forall_impl; [exact Hcpre|].
    intros g [(id & Hg & _) Hp]. split; [eexists; exact Hg | exact Hp].
Qed.

End RejectionClaim.

(** [{ components: { foo: { a: 1, k: [1] } } }] is rejected by both readers. *)
Lemma unsupported_param_value_rejected_witness :
  Run.getComponentParams "foo" arrayParamDoc = Err ErrUnsupportedParam ∧
  Run.getAllComponentParams arrayParamDoc = Err ErrUnsupportedParam.
Proof.
  pose (l := {| Begin := {| Line := 1; Column := 22 |};
                End_ := {| Line := 1; Column := 38 |} |}).
  pose (a := Jsonnet.fieldID ObjectFieldInherit false "a" (LiteralNumber 1 "1")).
  pose (k := Jsonnet.fieldID ObjectFieldInherit false "k"
               (Array [LiteralNumber 1 "1"] false)).
  pose (cf := Jsonnet.fieldID ObjectFieldInherit false "foo"
                (Object (mkObject l [a; k] false))).
  pose (comps := mkObject {| Begin := {| Line := 1; Column := 15 |};
                             End_ := {| Line := 1; Column := 40 |} |} [cf] false).
  apply (unsupported_param_value_rejected Jsonnet.astRoot Jsonnet.FormatFloat
           "foo" arrayParamDoc comps [] cf [] l [a] k "k" [] false).
  - vm_compute. reflexivity.
  - vm_compute. reflexivity.
  - reflexivity.
  - constructor.
  - reflexivity.
  - reflexivity.
  - constructor; [right; eexists; reflexivity | constructor].
  - reflexivity.
  - left. eexists _, _. reflexivity.
Defined.

(** ** The environment reader against the component reader *)

Section EnvironmentRead.
Variable astRoot : string → string → result Node.
Variable FormatFloat : float → string.

Lemma getFieldID_error f e : getFieldID f = Err e → isNotFound e = false.
Proof.
  unfold getFieldID. intros H.
  destruct (FieldKind f);
    repeat (match type of H with
            | context [match ?x with _ => _ end] => destruct x
            end); inversion H; reflexivity.
Qed.

Lemma findComponent_error component fields e :
  findComponent component fields = Err e → isNotFound e = false.
Proof.
  induction fields as [|f fields IH]; simpl; [discriminate|].
  unfold hasComponent.
  destruct (getFieldID f) as [id|e'] eqn:Hid.
  - destruct (String.eqb id component); [discriminate | exact IH].
  - intros [= <-]. eapply getFieldID_error, Hid.
Qed.

Lemma visitParamValue_error v e :
  visitParamValue FormatFloat v = Err e → isNotFound e = false.
Proof.
  destruct v; simpl; try (intros [= <-]; reflexivity); try discriminate.
  destruct Kind; intros [= <-]; reflexivity.
Qed.

Lemma visitParamFields_error fields params e :
  visitParamFields FormatFloat fields params = Err e → isNotFound e = false.
Proof.
  revert params. induction fields as [|f fields IH]; intros params; simpl;
    [discriminate|].
  destruct (FieldId f); [|apply IH].
  destruct (visitParamValue FormatFloat (FieldExpr2 f)) eqn:Hv; [apply IH|].
  intros [= <-]. eapply visitParamValue_error, Hv.
Qed.

Lemma visitParams_error v e :
  visitParams FormatFloat v = Err e → isNotFound e = false.
Proof.
  destruct v; simpl; try (intros [= <-]; reflexivity).
  destruct (visitParamFields FormatFloat (ObjFields n) ∅) eqn:Hf; [discriminate|].
  intros [= <-]. eapply visitParamFields_error, Hf.
Qed.

(** C9, amended: [getEnvironmentParams] returns what [getComponentParams]
    returns, with the flag [true], when the latter succeeds, and fails
    with the same error when the latter fails for another reason than the
    component being absent.  For a component absent from the located
    components object it succeeds: the Params are empty, the flag is
    [false] and the range is the insertion range [absentLoc]. *)
Theorem getEnvironmentParams_getComponentParams component snippet :
  getEnvironmentParams astRoot FormatFloat component snippet =
  match getComponentParams astRoot FormatFloat component snippet with
  | Ok (params, loc) => Ok (params, loc, true)
  | Err e =>
      if isNotFound e then
        try n ← visitComponentsObj astRoot component snippet;
        Ok (∅, absentLoc n, false)
      else Err e
  end.
Proof.
  unfold getEnvironmentParams, getComponentParams.
  destruct (visitComponentsObj astRoot component snippet) as [n|e].
  - destruct (findComponent component (ObjFields n)) as [[f|]|e] eqn:Hfind.
    + destruct (visitParams FormatFloat (FieldExpr2 f)) as [[p l]|e] eqn:Hp;
        [reflexivity|].
      rewrite (visitParams_error _ _ Hp). reflexivity.
    + reflexivity.
    + rewrite (findComponent_error _ _ _ Hfind). reflexivity.
  - destruct (isNotFound e); reflexivity.
Qed.

End EnvironmentRead.

(** C9, as stated, fails: the environment file the manager generates has no
    entry for [guestbook]; the component reader fails on it, the environment
    reader succeeds with empty Params. *)
Lemma getEnvironmentParams_absent_counterexample :
  Run.getComponentParams "guestbook" environmentDoc
  = Err (ErrComponentNotFound "guestbook") ∧
  ∃ loc, Run.getEnvironmentParams "guestbook" environmentDoc = Ok (∅, loc, false).
Proof. split; [|eexists]; vm_compute; reflexivity. Qed.

(** ** Merging parameters *)

Lemma mergeCurrent_union (currentParams params : Params) :
  mergeCurrent currentParams params = params ∪ currentParams.
Proof.
  unfold mergeCurrent.
  apply (map_fold_weak_ind (λ r (m : Params), r = params ∪ m)).
  - by rewrite (right_id_L ∅ (∪)).
  - intros k v m r Hk ->.
    rewrite lookup_union, Hk, (right_id_L None (∪)).
    destruct (params !! k) as [w|] eqn:Hp.
    + apply map_eq. intros j. rewrite !lookup_union.
      destruct (decide (k = j)) as [<- | Hne].
      * rewrite Hp, Hk, lookup_insert_eq. reflexivity.
      * rewrite lookup_insert_ne by assumption. reflexivity.
    + by apply insert_union_r.
Qed.

Lemma mergeCurrent_lookup (currentParams params : Params) k :
  mergeCurrent currentParams params !! k =
  match params !! k with
  | Some v => Some v
  | None => currentParams !! k
  end.
Proof.
  rewrite mergeCurrent_union, lookup_union.
  destruct (params !! k), (currentParams !! k); reflexivity.
Qed.

(** C2: the maps are merged as the claim has it, but the text is spliced
    by whole lines.  In [sameLineDoc] the braces of [foo] stand on the line
    of the components field: [setComponentParams] returns that line, the
    rendered parameters and that line again, so the rendered parameters
    are no part of [foo], and what is returned cannot be read. *)
Theorem setComponentParams_same_line :
  let text :=
    "{" ++ newline ++
    "  components: { foo: { a: 1 } }," ++ newline ++
    "      a: 1," ++ newline ++
    "      b: 3," ++ newline ++
    "      z: 9," ++ newline ++
    "  components: { foo: { a: 1 } }," ++ newline ++
    "}" ++ newline in
  Run.getComponentParams "foo" sameLineDoc
  = Ok ({[ "a" := "1" ]}, mkLocationRange (mkLocation 2 22) (mkLocation 2 30)) ∧
  Run.setComponentParams "foo" sameLineDoc {[ "b" := "3"; "z" := "9" ]} = Ok text ∧
  Run.getComponentParams "foo" text = Err (ErrParse "Duplicate field: components").
Proof. repeat split; vm_compute; reflexivity. Qed.

(** ** The concrete scenario *)

(** C3: the first half of the scenario holds: [foo] is read as
    [{replicas: "1", name: "\"a\""}].  In the second half the block is
    written before line 1, the only line there is: what [appendComponent]
    returns is the block followed by the untouched document, which is no
    document, and neither [foo] nor [bar] can be read from it. *)
Theorem appendComponent_one_line :
  let text :=
    "    bar: {" ++ newline ++
    "      replicas: 2," ++ newline ++
    "    }," ++ newline ++
    oneLineDoc in
  Run.getComponentParams "foo" oneLineDoc
  = Ok ({[ "replicas" := "1"; "name" := dquote ++ "a" ++ dquote ]},
        mkLocationRange (mkLocation 1 22) (mkLocation 1 48)) ∧
  Run.appendComponent "bar" oneLineDoc {[ "replicas" := "2" ]} = Ok text ∧
  Run.getComponentParams "foo" text = Err (ErrParse "Did not expect: :") ∧
  Run.getComponentParams "bar" text = Err (ErrParse "Did not expect: :") ∧
  Run.getAllComponentParams text = Err (ErrParse "Did not expect: :").
Proof. repeat split; vm_compute; reflexivity. Qed.

(** ** Lines of text *)

Lemma string_app_assoc (a b c : string) : (a ++ b) ++ c = a ++ (b ++ c).
Proof.
  induction a as [|x a IH]; [reflexivity|].
  change (String x ((a ++ b) ++ c) = String x (a ++ (b ++ c))). f_equal. exact IH.
Qed.

Lemma Split_nonempty s : Split s ≠ [].
Proof.
  destruct s as [|c s]; simpl; [discriminate|].
  destruct (Ascii.eqb c "010"); [discriminate|].
  destruct (Split s); discriminate.
Qed.

Lemma Split_app_newline a b :
  Split (a ++ newline ++ b) = (Split a ++ Split b)%list.
Proof.
  induction a as [|c a IH]; simpl; [reflexivity|].
  destruct (Ascii.eqb c "010").
  - simpl in IH. rewrite IH. reflexivity.
  - simpl in IH. rewrite IH.
    pose proof (Split_nonempty a) as Hne.
    destruct (Split a) as [|l ls]; [contradiction | reflexivity].
Qed.

Lemma Split_noNewline a : noNewline a = true → Split a = [a].
Proof.
  induction a as [|c a IH]; simpl; [reflexivity|].
  intros [Hc Ha]%andb_true_iff. apply negb_true_iff in Hc. rewrite Hc, (IH Ha).
  reflexivity.
Qed.

Lemma Split_Forall s : Forall (λ l, noNewline l = true) (Split s).
Proof.
  induction s as [|c s IH]; simpl; [repeat constructor|].
  destruct (Ascii.eqb c "010") eqn:Hc; [constructor; [reflexivity | exact IH]|].
  destruct (Split s) as [|l ls]; [repeat constructor; simpl; by rewrite Hc|].
  inversion IH as [|? ? Hl Hls]; subst. constructor; [|exact Hls].
  simpl. rewrite Hc, Hl. reflexivity.
Qed.

Lemma Join_cons l ls : ls ≠ [] → Join (l :: ls) = l ++ newline ++ Join ls.
Proof. destruct ls; [contradiction | reflexivity]. Qed.

Lemma Join_app l1 l2 :
  l1 ≠ [] → l2 ≠ [] → Join (l1 ++ l2) = Join l1 ++ newline ++ Join l2.
Proof.
  intros H1 H2. induction l1 as [|l l1 IH]; [contradiction|].
  destruct l1 as [|l' l1].
  - simpl app. rewrite Join_cons by assumption. reflexivity.
  - change (Join (l :: (l' :: l1) ++ l2) = Join (l :: l' :: l1) ++ newline ++ Join l2).
    rewrite (Join_cons l ((l' :: l1) ++ l2)) by discriminate.
    rewrite IH by discriminate. rewrite (Join_cons l (l' :: l1)) by discriminate.
    rewrite !string_app_assoc. reflexivity.
Qed.

Lemma Split_Join ls :
  ls ≠ [] → Forall (λ l, noNewline l = true) ls → Split (Join ls) = ls.
Proof.
  intros Hne Hall. induction Hall as [|l ls Hl Hls IH]; [contradiction|].
  destruct ls as [|l' ls].
  - simpl. apply Split_noNewline, Hl.
  - rewrite Join_cons by discriminate. rewrite Split_app_newline.
    rewrite (Split_noNewline _ Hl), IH by discriminate. reflexivity.
Qed.

Lemma noNewline_app a b :
  noNewline (a ++ b) = noNewline a && noNewline b.
Proof.
  induction a as [|c a IH]; simpl; [reflexivity|].
  rewrite IH, andb_assoc. reflexivity.
Qed.

(** ** Rendering *)


(** ** Splicing *)

Lemma slice_to_ok (a : list string) (hi : Z) :
  (0 ≤ hi ≤ Z.of_nat (length a))%Z → slice_to a hi = Ok (take (Z.to_nat hi) a).
Proof. intros H. unfold slice_to. by rewrite bool_decide_eq_true_2. Qed.

Lemma slice_from_ok (a : list string) (lo : Z) :
  (0 ≤ lo ≤ Z.of_nat (length a))%Z → slice_from a lo = Ok (drop (Z.to_nat lo) a).
Proof. intros H. unfold slice_from. by rewrite bool_decide_eq_true_2. Qed.

Lemma spliceLines_ok snippet loc text :
  (0 ≤ Line (Begin loc) ≤ Z.of_nat (length (Split snippet)))%Z →
  (1 ≤ Line (End_ loc) ≤ Z.of_nat (length (Split snippet)) + 1)%Z →
  spliceLines snippet loc text
  = Ok (Join (take (Z.to_nat (Line (Begin loc))) (Split snippet)) ++ text
        ++ Join (drop (Z.to_nat (Line (End_ loc) - 1)) (Split snippet))).
Proof.
  intros Hb He. unfold spliceLines.
  rewrite slice_to_ok, slice_from_ok by lia. reflexivity.
Qed.



Lemma mergeCurrent_empty (params : Params) : mergeCurrent ∅ params = params.
Proof. rewrite mergeCurrent_union. apply (right_id_L ∅ (∪)). Qed.


(** ** Environment overrides: create, then update *)


Section CreateThenUpdate.
Variable astRoot : string → string → result Node.
Variable FormatFloat : float → string.
Variable IsASCIIIdentifier : string → bool.


End CreateThenUpdate.


(** ** Appending a component and reading it back *)

(** C1: [sameLineDoc] is valid and has no component [bar], and the round
    trip fails on it.  The block is inserted by whole lines, before the
    line on which the components object ends; here that line holds the
    whole components object, so the block becomes a field of the root
    object: the components object of the returned text holds [foo] alone
    and reading [bar] back fails. *)
Theorem appendComponent_same_line :
  let text :=
    "{" ++ newline ++
    "    bar: {" ++ newline ++
    "      replicas: 2," ++ newline ++
    "    }," ++ newline ++
    "  components: { foo: { a: 1 } }," ++ newline ++
    "}" ++ newline in
  Run.getAllComponentParams sameLineDoc = Ok {[ "foo" := {[ "a" := "1" ]} ]} ∧
  Run.appendComponent "bar" sameLineDoc {[ "replicas" := "2" ]} = Ok text ∧
  Run.getComponentParams "bar" text = Err (ErrComponentNotFound "bar") ∧
  Run.getAllComponentParams text = Ok {[ "foo" := {[ "a" := "1" ]} ]}.
Proof. repeat split; vm_compute; reflexivity. Qed.



(** ** The literal codec *)

(** What [visitParamValue] does by node kind: a number is handed to
    [strconv.FormatFloat] (format ['f'], precision [-1]), a boolean becomes
    [true] or [false], a single- or double-quoted string is wrapped in
    double quotes, and every other kind of node is rejected. *)
Lemma visitParamValue_kinds (FormatFloat : float → string) :
  (∀ v o, visitParamValue FormatFloat (LiteralNumber v o) = Ok (FormatFloat v)) ∧
  (∀ b, visitParamValue FormatFloat (LiteralBoolean b)
        = Ok (if b then "true" else "false")) ∧
  (∀ s i, visitParamValue FormatFloat (LiteralString s StringSingle i)
          = Ok (dquote ++ s ++ dquote) ∧
          visitParamValue FormatFloat (LiteralString s StringDouble i)
          = Ok (dquote ++ s ++ dquote)) ∧
  (∀ n, isScalarLiteral n = false →
        visitParamValue FormatFloat n = Err ErrUnsupportedParam).
Proof.
  repeat split; try reflexivity.
  intros n Hn. destruct n; try reflexivity; discriminate.
Qed.

(** * Further properties *)

(** ** The locator: how the state is threaded *)

Lemma Overlays_seq f g :
  Overlays f → Overlays g →
  Overlays (λ st, match f st with Ok st' => g st' | Err e => Err e end).
Proof.
  intros Hf Hg st. rewrite (Hf st).
  destruct (f None) as [[c|]|e]; simpl; try reflexivity.
  - rewrite (Hg (Some c)). destruct (g None) as [[c'|]|e]; reflexivity.
  - apply Hg.
Qed.

Lemma Overlays_ret : Overlays (λ st, Ok st).
Proof. intros st. reflexivity. Qed.

Ltac overlay_seq := apply (Overlays_seq (λ st, _) (λ st, _)).
Ltac overlay_loop l IH :=
  induction l as [|? ? IH]; [exact Overlays_ret | overlay_seq; [|exact IH]].

(** Every function of the walk sees the incoming state only to hand it
    back: by induction on the tree, through the lists it nests. *)
Lemma visit_Overlays node : Overlays (visit node)
with visitFunction_Overlays n : Overlays (visitFunction n)
with visitCompSpec_Overlays n : Overlays (visitCompSpec n)
with visitObjectField_Overlays n : Overlays (visitObjectField n)
with visitDesugaredObjectField_Overlays n : Overlays (visitDesugaredObjectField n)
with visitLocalBind_Overlays n : Overlays (visitLocalBind n).
Proof.
  - destruct node as [ | Target Positional Named ? ? | Left Right | Elements ?
                      | Body ? Spec | Cond Message Rest | Left ? Right
                      | Cond BranchTrue BranchFalse | | Expr | fn | ? | ?
                      | Target Index_ ? | Target BeginIndex EndIndex Step
                      | Binds Body | ? | | ? ? | ? ? ? | [loc Fields tc]
                      | Asserts Fields | Fields ? Spec | ? ? ? ? | | Index_ ?
                      | Index_ | ? Expr | ? ]; simpl;
      try (intros st; reflexivity).
    + overlay_seq; [|overlay_seq].
      * overlay_loop Positional IH. apply visit_Overlays.
      * induction Named as [|[x a] l IH]; [exact Overlays_ret|].
        overlay_seq; [apply visit_Overlays | exact IH].
      * apply visit_Overlays.
    + overlay_seq; apply visit_Overlays.
    + overlay_loop Elements IH. apply visit_Overlays.
    + overlay_seq; [apply visitCompSpec_Overlays | apply visit_Overlays].
    + overlay_seq; [|overlay_seq]; apply visit_Overlays.
    + overlay_seq; apply visit_Overlays.
    + overlay_seq; [|overlay_seq]; apply visit_Overlays.
    + apply visit_Overlays.
    + apply visitFunction_Overlays.
    + overlay_seq; apply visit_Overlays.
    + overlay_seq; [|overlay_seq; [|overlay_seq]]; apply visit_Overlays.
    + overlay_seq; [|apply visit_Overlays].
      overlay_loop Binds IH. apply visitLocalBind_Overlays.
    + induction Fields as [|f fs IH]; [exact Overlays_ret|].
      destruct (isComponentsField f).
      * destruct (FieldExpr2 f); intros st; reflexivity.
      * overlay_seq; [apply visitObjectField_Overlays | exact IH].
    + overlay_seq.
      * overlay_loop Asserts IH. apply visit_Overlays.
      * overlay_loop Fields IH. apply visitDesugaredObjectField_Overlays.
    + overlay_seq; [|apply visitCompSpec_Overlays].
      overlay_loop Fields IH. apply visitObjectField_Overlays.
    + apply visit_Overlays.
    + apply visit_Overlays.
    + apply visit_Overlays.
  - destruct n as [[Required Optional] ? Body]; simpl.
    overlay_seq; [|apply visit_Overlays].
    induction Optional as [|[x a] l IH]; [exact Overlays_ret|].
    overlay_seq; [apply visit_Overlays | exact IH].
  - destruct n as [? Expr Conditions Outer]; simpl.
    overlay_seq; [|overlay_seq].
    + destruct Outer as [outer|]; [apply visitCompSpec_Overlays | exact Overlays_ret].
    + induction Conditions as [|[e] l IH]; [exact Overlays_ret|].
      overlay_seq; [apply visit_Overlays | exact IH].
    + apply visit_Overlays.
  - destruct n as [? ? ? ? Method Expr1 ? Params ? Expr2 Expr3]; simpl.
    overlay_seq; [|overlay_seq; [|overlay_seq; [|overlay_seq]]];
      try apply visit_Overlays.
    + destruct Method as [m|]; [apply visitFunction_Overlays | exact Overlays_ret].
    + destruct Params as [[Required Optional]|]; [|exact Overlays_ret].
      induction Optional as [|[x a] l IH]; [exact Overlays_ret|].
      overlay_seq; [apply visit_Overlays | exact IH].
  - destruct n as [? Name Body ?]; simpl. overlay_seq; apply visit_Overlays.
  - destruct n as [? Body Fun]; simpl. overlay_seq; [|apply visit_Overlays].
    destruct Fun as [f|]; [apply visitFunction_Overlays | exact Overlays_ret].
Qed.

(** X1: for every tree and every incoming state, the visit of the tree
    fails exactly when it fails from the empty state, returns what it finds
    from the empty state when it finds an object there, and returns the
    incoming state unchanged when it finds none: an object found earlier
    is never lost, only replaced. *)
Theorem visit_state node st :
  visit node st =
  match visit node None with
  | Ok None => Ok st
  | Ok (Some c) => Ok (Some c)
  | Err e => Err e
  end.
Proof.
  rewrite (visit_Overlays node st). unfold overlay.
  destruct (visit node None) as [[c|]|e]; reflexivity.
Qed.

(** X2: the last match wins between the operands of a binary operator and
    of an object application: when the right operand holds a components
    object and the left operand is visited without error, the object of
    the right operand is the result, whatever the left operand holds. *)
Theorem visit_right_operand_wins left op right c st st' :
  visit left st = Ok st' →
  visit right None = Ok (Some c) →
  visit (Binary left op right) st = Ok (Some c) ∧
  visit (ApplyBrace left right) st = Ok (Some c).
Proof.
  intros Hl Hr. simpl. rewrite Hl, (visit_Overlays right st'), Hr. split; reflexivity.
Qed.

(** In [{ components: { a: 1 } } + { components: { b: 2 } }] the second
    object is the one located. *)
Lemma visit_right_operand_wins_witness :
  let l0 := {| Begin := {| Line := 1; Column := 1 |};
               End_ := {| Line := 1; Column := 2 |} |} in
  let fld := Jsonnet.fieldID ObjectFieldInherit false in
  let ca := mkObject l0 [fld "a" (LiteralNumber 1 "1")] false in
  let cb := mkObject l0 [fld "b" (LiteralNumber 2 "2")] false in
  let left := Object (mkObject l0 [fld "components" (Object ca)] false) in
  let right := Object (mkObject l0 [fld "components" (Object cb)] false) in
  visit left None = Ok (Some ca) ∧
  visit (Binary left "+" right) None = Ok (Some cb) ∧
  visit (ApplyBrace left right) None = Ok (Some cb).
Proof.
  intros l0 fld ca cb left right. split; [reflexivity|].
  apply (visit_right_operand_wins left "+" right cb None (Some ca)); reflexivity.
Defined.

(** X3: a [components] field whose value is not an object is an error, not
    a miss: when the first identifier-keyed [components] field of the root
    object holds anything but an object and the fields before it are
    visited without error, [visitComponentsObj] fails with "Expected
    components node type to be object". *)
Theorem visitComponentsObj_components_not_object
    (astRoot : string → string → result Node) component snippet
    loc pre f post tc st' :
  astRoot component snippet = Ok (Object (mkObject loc (pre ++ f :: post) tc)) →
  Forall (λ g, FieldId g ≠ Some componentsID) pre →
  visitObjectFields pre None = Ok st' →
  FieldId f = Some componentsID →
  isObject (FieldExpr2 f) = false →
  visitComponentsObj astRoot component snippet = Err (ErrNotObject componentsID).
Proof.
  intros Hroot Hpre Hdescent Hid Hval.
  unfold visitComponentsObj. rewrite Hroot.
  rewrite visit_Object_app, Hdescent, visit_Object_cons by assumption.
  apply isComponentsField_true in Hid. rewrite Hid.
  destruct (FieldExpr2 f); try reflexivity. discriminate.
Qed.

Lemma visitComponentsObj_components_not_object_witness :
  Run.visitComponentsObj "foo" numberComponentsDoc = Err (ErrNotObject componentsID).
Proof.
  eapply (visitComponentsObj_components_not_object Jsonnet.astRoot "foo"
            numberComponentsDoc _
            [Jsonnet.fieldID ObjectFieldInherit false "a" (LiteralNumber 1 "1")]
            (Jsonnet.fieldID ObjectFieldInherit false "components" (LiteralNumber 1 "1"))
            [] false None).
  - vm_compute. reflexivity.
  - repeat constructor. discriminate.
  - reflexivity.
  - reflexivity.
  - reflexivity.
Defined.

(** ** Merging the parameters of components and environments *)

Lemma fold_insert_union (current params : Params) :
  map_fold (λ k v (cur : Params), <[k := v]> cur) current params = params ∪ current.
Proof.
  apply (map_fold_weak_ind (λ r (m : Params), r = m ∪ current)).
  - by rewrite (left_id_L ∅ (∪)).
  - intros k v m r Hk ->. by rewrite insert_union_l.
Qed.

Lemma mergeParamMaps_spec (base overrides : gmap string Params) component :
  mergeParamMaps base overrides !! component =
  match overrides !! component, base !! component with
  | Some o, Some b => Some (o ∪ b)
  | Some o, None => Some o
  | None, b => b
  end.
Proof.
  unfold mergeParamMaps. revert component.
  apply (map_fold_weak_ind
           (λ (r m : gmap string Params),
              ∀ component,
                r !! component =
                match m !! component, base !! component with
                | Some o, Some b => Some (o ∪ b)
                | Some o, None => Some o
                | None, b => b
                end)).
  - intros component. rewrite lookup_empty. reflexivity.
  - intros c params m r Hc IH component.
    assert (Hrc : r !! c = base !! c) by (by rewrite IH, Hc).
    rewrite Hrc.
    destruct (decide (c = component)) as [<- | Hne].
    + rewrite lookup_insert_eq.
      destruct (base !! c) as [b|]; rewrite lookup_insert_eq; [|reflexivity].
      by rewrite fold_insert_union.
    + rewrite (lookup_insert_ne m) by assumption.
      destruct (base !! c); rewrite lookup_insert_ne by assumption; apply IH.
Qed.

(** X4: [mergeParamMaps] by lookup: a component of the overrides that the
    base lacks is adopted as it is, a component of both holds the union of
    the two Params in which the override wins key by key, and a component
    of the base alone is unchanged. *)
Theorem mergeParamMaps_lookup (base overrides : gmap string Params) component :
  mergeParamMaps base overrides !! component =
  match overrides !! component, base !! component with
  | Some o, Some b => Some (o ∪ b)
  | Some o, None => Some o
  | None, b => b
  end.
Proof. apply mergeParamMaps_spec. Qed.


(** ** Reading the parameters of a component *)

Section ReadingMore.
Variable astRoot : string → string → result Node.
Variable FormatFloat : float → string.
Variable IsASCIIIdentifier : string → bool.

Lemma visitParamValue_decodable n :
  decodable n = true ↔ ∃ v, visitParamValue FormatFloat n = Ok v.
Proof.
  split.
  - destruct n; try discriminate; simpl; eauto.
    destruct Kind; try discriminate; eauto.
  - intros [v Hv]. destruct n; try discriminate; try reflexivity.
    destruct Kind; try discriminate; reflexivity.
Qed.

Lemma visitParamFields_app l1 l2 acc :
  visitParamFields FormatFloat (l1 ++ l2) acc =
  try acc' ← visitParamFields FormatFloat l1 acc;
  visitParamFields FormatFloat l2 acc'.
Proof.
  revert acc. induction l1 as [|f l1 IH]; intros acc; simpl; [reflexivity|].
  destruct (FieldId f); [|apply IH].
  destruct (visitParamValue FormatFloat (FieldExpr2 f)); [apply IH | reflexivity].
Qed.

Lemma visitParamFields_accepts fields acc :
  (∃ p, visitParamFields FormatFloat fields acc = Ok p) ↔
  forallb acceptedField fields = true.
Proof.
  revert acc. induction fields as [|f fields IH]; intros acc; simpl.
  - split; eauto.
  - unfold acceptedField at 1. destruct (FieldId f) as [k|]; simpl; [|apply IH].
    destruct (decodable (FieldExpr2 f)) eqn:Hd; simpl.
    + apply visitParamValue_decodable in Hd as [v ->]. apply IH.
    + split; [|discriminate]. intros [p Hp].
      destruct (visitParamValue FormatFloat (FieldExpr2 f)) as [v|] eqn:Hv;
        [|discriminate].
      assert (decodable (FieldExpr2 f) = true) as Hd'
        by (apply visitParamValue_decodable; eauto).
      congruence.
Qed.

(** X6: a component is readable exactly when its value is an object each
    of whose identifier-keyed fields holds a number, a boolean or a string
    in single or double quotes; fields without an identifier do not
    count. *)
Theorem visitParams_accepts loc fields tc :
  (∃ r, visitParams FormatFloat (Object (mkObject loc fields tc)) = Ok r) ↔
  forallb acceptedField fields = true.
Proof.
  rewrite <- (visitParamFields_accepts fields ∅). simpl. split.
  - intros [r Hr]. destruct (visitParamFields FormatFloat fields ∅); [eauto | discriminate].
  - intros [p ->]. eauto.
Qed.

Lemma visitParamFields_keeps k fields acc p :
  Forall (λ g, FieldId g ≠ Some k) fields →
  visitParamFields FormatFloat fields acc = Ok p →
  p !! k = acc !! k.
Proof.
  intros Hall. revert acc. induction Hall as [|g fields Hg _ IH]; intros acc; simpl.
  - by intros [= ->].
  - destruct (FieldId g) as [k'|]; [|apply IH].
    destruct (visitParamValue FormatFloat (FieldExpr2 g)) as [v|]; [|discriminate].
    intros Hp. rewrite (IH _ Hp). apply lookup_insert_ne. congruence.
Qed.

(** X7: the Params read from a component hold exactly the identifier keys
    of its fields, and the value under a key is the decoded value of the
    last field with that key: nothing else enters the Params. *)
Theorem visitParamFields_lookup fields p k v :
  visitParamFields FormatFloat fields ∅ = Ok p →
  (p !! k = Some v ↔
   ∃ pre f post,
     fields = (pre ++ f :: post)%list ∧ FieldId f = Some k ∧
     visitParamValue FormatFloat (FieldExpr2 f) = Ok v ∧
     Forall (λ g, FieldId g ≠ Some k) post).
Proof.
  revert p. induction fields as [|f fields IH] using rev_ind; intros p.
  - simpl. intros [= <-]. rewrite lookup_empty. split; [discriminate|].
    intros (pre & f & post & Heq & _). by destruct pre.
  - rewrite visitParamFields_app.
    destruct (visitParamFields FormatFloat fields ∅) as [q|] eqn:Hq; [|discriminate].
    simpl. destruct (FieldId f) as [k'|] eqn:Hid.
    + destruct (visitParamValue FormatFloat (FieldExpr2 f)) as [w|] eqn:Hw;
        [|discriminate].
      intros [= <-]. destruct (decide (k' = k)) as [-> | Hne].
      * rewrite lookup_insert_eq. split.
        -- intros [= <-]. exists fields, f, []. by repeat split.
        -- intros (pre & g & post & Heq & Hg & Hgv & Hpost).
           destruct post as [|x post _] using rev_ind.
           ++ apply app_inj_tail in Heq as [_ <-]. congruence.
           ++ rewrite app_comm_cons, app_assoc in Heq.
              apply app_inj_tail in Heq as [_ <-].
              apply Forall_app in Hpost as [_ Hx]. inversion Hx; subst. contradiction.
      * rewrite lookup_insert_ne by assumption. rewrite (IH q eq_refl). split.
        -- intros (pre & g & post & -> & Hg & Hgv & Hpost).
           exists pre, g, (post ++ [f])%list. rewrite <- app_assoc. repeat split; try done.
           apply Forall_app. split; [done|]. repeat constructor. congruence.
        -- intros (pre & g & post & Heq & Hg & Hgv & Hpost).
           destruct post as [|x post _] using rev_ind.
           ++ apply app_inj_tail in Heq as [_ <-]. congruence.
           ++ rewrite app_comm_cons, app_assoc in Heq.
              apply app_inj_tail in Heq as [-> <-].
              apply Forall_app in Hpost as [Hpost _].
              exists pre, g, post. by repeat split.
    + intros [= <-]. rewrite (IH q eq_refl). split.
      * intros (pre & g & post & -> & Hg & Hgv & Hpost).
        exists pre, g, (post ++ [f])%list. rewrite <- app_assoc. repeat split; try done.
        apply Forall_app. split; [done|]. repeat constructor. congruence.
      * intros (pre & g & post & Heq & Hg & Hgv & Hpost).
        destruct post as [|x post _] using rev_ind.
        -- apply app_inj_tail in Heq as [_ <-]. congruence.
        -- rewrite app_comm_cons, app_assoc in Heq.
           apply app_inj_tail in Heq as [-> <-].
           apply Forall_app in Hpost as [Hpost _].
           exists pre, g, post. by repeat split.
Qed.

End ReadingMore.

Lemma visitParamFields_lookup_witness :
  ∃ p, visitParamFields Jsonnet.FormatFloat repeatedParamFields ∅ = Ok p ∧
       p !! "a" = Some "true" ∧ p !! "q" = None.
Proof.
  destruct (visitParamFields Jsonnet.FormatFloat repeatedParamFields ∅) as [p|] eqn:Hp;
    [|vm_compute in Hp; discriminate].
  exists p. split; [reflexivity|]. split.
  - apply (visitParamFields_lookup Jsonnet.FormatFloat repeatedParamFields p
             "a" "true" Hp).
    exists [Jsonnet.fieldID ObjectFieldInherit false "a" (LiteralNumber 1 "1");
            Jsonnet.fieldStr ObjectFieldInherit false StringDouble "q" (Array [] false)],
           (Jsonnet.fieldID ObjectFieldInherit false "a" (LiteralBoolean true)), [].
    repeat split; constructor.
  - vm_compute in Hp. injection Hp as <-. reflexivity.
Defined.

(** ** Looking a component up *)

Section Lookup.
Variable astRoot : string → string → result Node.
Variable FormatFloat : float → string.
Variable IsASCIIIdentifier : string → bool.

Lemma checkAbsent_findComponent component fields :
  checkAbsent component fields =
  match findComponent component fields with
  | Ok None => Ok tt
  | Ok (Some _) => Err (ErrComponentExists component)
  | Err e => Err e
  end.
Proof.
  induction fields as [|f fields IH]; simpl; [reflexivity|].
  destruct (hasComponent component f) as [[|]|e]; [reflexivity | exact IH | reflexivity].
Qed.

Lemma findComponent_Some_key component fields f :
  findComponent component fields = Ok (Some f) →
  getFieldID f = Ok component ∧ f ∈ fields.
Proof.
  induction fields as [|g fields IH]; simpl; [discriminate|].
  unfold hasComponent. destruct (getFieldID g) as [id|] eqn:Hid; [|discriminate].
  destruct (String.eqb id component) eqn:Heq.
  - intros [= <-]. apply String.eqb_eq in Heq as ->. split; [exact Hid | left].
  - intros H. destruct (IH H) as [Hk Hin]. split; [exact Hk | by right].
Qed.

(** X8: the lookup is by the key [getFieldID] reads, whether the name is
    written bare or in quotes, and the first entry with the name is the
    one read: when the entries before it are readable and named otherwise,
    [getComponentParams] and [getEnvironmentParams] return the Params and
    the range of that entry's value. *)
Theorem getComponentParams_first_entry component snippet n pre f post :
  visitComponentsObj astRoot component snippet = Ok n →
  ObjFields n = (pre ++ f :: post)%list →
  Forall (λ g, ∃ id, getFieldID g = Ok id ∧ id ≠ component) pre →
  getFieldID f = Ok component →
  getComponentParams astRoot FormatFloat component snippet
  = visitParams FormatFloat (FieldExpr2 f) ∧
  getEnvironmentParams astRoot FormatFloat component snippet
  = (try (p, l) ← visitParams FormatFloat (FieldExpr2 f); Ok (p, l, true)).
Proof.
  intros Hn Hfields Hpre Hid.
  unfold getComponentParams, getEnvironmentParams. rewrite Hn, Hfields.
  rewrite (findComponent_app component pre) by assumption.
  rewrite (findComponent_here _ _ _ Hid). split; reflexivity.
Qed.

(** X9: a component that can be read cannot be appended:
    when [getComponentParams] succeeds on a source, [appendComponent] of
    the same name fails on it with "Component parameters for ... already
    exists", whatever the Params. *)
Theorem appendComponent_rejects_existing component snippet params r :
  getComponentParams astRoot FormatFloat component snippet = Ok r →
  appendComponent astRoot IsASCIIIdentifier component snippet params
  = Err (ErrComponentExists component).
Proof.
  unfold getComponentParams, appendComponent.
  destruct (visitComponentsObj astRoot component snippet) as [n|]; [|discriminate].
  rewrite checkAbsent_findComponent.
  destruct (findComponent component (ObjFields n)) as [[f|]|]; try discriminate.
  reflexivity.
Qed.

(** X10: where [appendComponent] succeeds the component was absent: on the
    same source [getComponentParams] fails with "Could not find component
    identifier", [getEnvironmentParams] reports the component as missing,
    and [setComponentParams] fails like [getComponentParams]. *)
Theorem appendComponent_only_absent component snippet params params' text :
  appendComponent astRoot IsASCIIIdentifier component snippet params = Ok text →
  getComponentParams astRoot FormatFloat component snippet
  = Err (ErrComponentNotFound component) ∧
  (∃ loc, getEnvironmentParams astRoot FormatFloat component snippet
          = Ok (∅, loc, false)) ∧
  setComponentParams astRoot FormatFloat component snippet params'
  = Err (ErrComponentNotFound component).
Proof.
  unfold appendComponent, getComponentParams, getEnvironmentParams, setComponentParams,
    getComponentParams.
  destruct (visitComponentsObj astRoot component snippet) as [n|]; [|discriminate].
  rewrite checkAbsent_findComponent.
  destruct (findComponent component (ObjFields n)) as [[f|]|]; try discriminate.
  intros _. repeat split. eexists. reflexivity.
Qed.

(** X11: for a component that has an entry, [setEnvironmentParams] is
    [setComponentParams]: whenever [getComponentParams] succeeds both
    return the same text (or fail alike). *)
Theorem setEnvironmentParams_existing component snippet params r :
  getComponentParams astRoot FormatFloat component snippet = Ok r →
  setEnvironmentParams astRoot FormatFloat IsASCIIIdentifier component snippet params
  = setComponentParams astRoot FormatFloat component snippet params.
Proof.
  unfold setEnvironmentParams, setComponentParams, getEnvironmentParams,
    getComponentParams.
  destruct (visitComponentsObj astRoot component snippet) as [n|]; [|discriminate].
  destruct (findComponent component (ObjFields n)) as [[f|]|]; try discriminate.
  destruct (visitParams FormatFloat (FieldExpr2 f)) as [[p l]|]; [|discriminate].
  intros _. reflexivity.
Qed.

Lemma fieldKeys_cons f fields :
  fieldKeys (f :: fields) =
  match getFieldID f with
  | Ok id => id :: fieldKeys fields
  | Err _ => fieldKeys fields
  end.
Proof. unfold fieldKeys. simpl. destruct (getFieldID f); reflexivity. Qed.

Lemma findComponent_Some_fieldKeys component fields f :
  findComponent component fields = Ok (Some f) → component ∈ fieldKeys fields.
Proof.
  induction fields as [|g fields IH]; [discriminate|].
  rewrite fieldKeys_cons. simpl. unfold hasComponent.
  destruct (getFieldID g) as [id|]; [|discriminate].
  destruct (String.eqb id component) eqn:Heq.
  - intros _. apply String.eqb_eq in Heq as ->. left.
  - intros H. right. exact (IH H).
Qed.

Lemma visitAllFields_findComponent fields acc all component :
  visitAllFields FormatFloat fields acc = Ok all →
  NoDup (fieldKeys fields) →
  match findComponent component fields with
  | Ok (Some f) => ∃ p l, visitParams FormatFloat (FieldExpr2 f) = Ok (p, l) ∧
                          all !! component = Some p
  | Ok None => all !! component = acc !! component
  | Err _ => False
  end.
Proof.
  revert acc. induction fields as [|f fields IH]; intros acc.
  - simpl. by intros [= ->] _.
  - rewrite fieldKeys_cons. simpl. unfold hasComponent.
    destruct (visitParams FormatFloat (FieldExpr2 f)) as [[p l]|] eqn:Hp; [|discriminate].
    destruct (getFieldID f) as [id|]; [|discriminate].
    intros Hall [Hnin Hnodup]%NoDup_cons.
    specialize (IH _ Hall Hnodup).
    destruct (String.eqb id component) eqn:Heq.
    + apply String.eqb_eq in Heq as ->. exists p, l. split; [exact Hp|].
      destruct (findComponent component fields) as [[g|]|] eqn:Hfind.
      * exfalso. apply Hnin. eapply findComponent_Some_fieldKeys, Hfind.
      * rewrite IH. apply lookup_insert_eq.
      * contradiction.
    + apply String.eqb_neq in Heq.
      destruct (findComponent component fields) as [[g|]|]; try exact IH.
      rewrite IH. by apply lookup_insert_ne.
Qed.

(** X12: [getAllComponentParams] and [getComponentParams] agree: when the
    names of the components are distinct and the parser gives the same
    tree under both file names, a component maps to Params [p] in the
    result of [getAllComponentParams] exactly when [getComponentParams]
    returns [p] for it, and a name that is not in the result is reported
    as not found. *)
Theorem getAllComponentParams_getComponentParams component snippet n all :
  visitComponentsObj astRoot "" snippet = Ok n →
  visitComponentsObj astRoot component snippet = Ok n →
  NoDup (fieldKeys (ObjFields n)) →
  getAllComponentParams astRoot FormatFloat snippet = Ok all →
  match all !! component with
  | Some p => ∃ loc, getComponentParams astRoot FormatFloat component snippet
                     = Ok (p, loc)
  | None => getComponentParams astRoot FormatFloat component snippet
            = Err (ErrComponentNotFound component)
  end.
Proof.
  intros Hn Hn' Hnodup. unfold getAllComponentParams, getComponentParams, visitAllParams.
  rewrite Hn, Hn'. intros Hall.
  pose proof (visitAllFields_findComponent _ _ _ component Hall Hnodup) as H.
  destruct (findComponent component (ObjFields n)) as [[f|]|]; [| |contradiction].
  - destruct H as (p & l & Hp & ->). exists l. exact Hp.
  - rewrite H, lookup_empty. reflexivity.
Qed.

End Lookup.

(** In [twoComponentsDoc] the component ["foo-bar"], written in quotes
    after [foo], is found and read. *)
Lemma getComponentParams_first_entry_witness :
  ∃ loc, Run.getComponentParams "foo-bar" twoComponentsDoc
         = Ok ({[ "b" := "true" ]}, loc) ∧
         Run.getEnvironmentParams "foo-bar" twoComponentsDoc
         = Ok ({[ "b" := "true" ]}, loc, true).
Proof.
  eassert (Hn : visitComponentsObj Jsonnet.astRoot "foo-bar" twoComponentsDoc = Ok _)
    by (vm_compute; reflexivity).
  lazymatch type of Hn with
  | _ = Ok (mkObject ?l [?g1; ?g2] ?tc) =>
      destruct (getComponentParams_first_entry Jsonnet.astRoot Jsonnet.FormatFloat
                  "foo-bar" twoComponentsDoc
                  (mkObject l [g1; g2] tc) [g1] g2 [] Hn) as [Hget Henv]
  end.
  - reflexivity.
  - repeat constructor. eexists. split; [reflexivity | discriminate].
  - reflexivity.
  - eexists. unfold Run.getComponentParams, Run.getEnvironmentParams.
    rewrite Hget, Henv. split; vm_compute; reflexivity.
Defined.

Lemma appendComponent_rejects_existing_witness :
  Run.appendComponent "foo" fooDoc {[ "c" := "3" ]} = Err (ErrComponentExists "foo").
Proof.
  eapply (appendComponent_rejects_existing Jsonnet.astRoot Jsonnet.FormatFloat
            Jsonnet.IsASCIIIdentifier "foo" fooDoc).
  vm_compute. reflexivity.
Defined.

Lemma appendComponent_only_absent_witness :
  Run.getComponentParams "bar" genComponentParamsContent
  = Err (ErrComponentNotFound "bar") ∧
  (∃ loc, Run.getEnvironmentParams "bar" genComponentParamsContent
          = Ok (∅, loc, false)) ∧
  Run.setComponentParams "bar" genComponentParamsContent {[ "x" := "1" ]}
  = Err (ErrComponentNotFound "bar").
Proof.
  eapply (appendComponent_only_absent Jsonnet.astRoot Jsonnet.FormatFloat
            Jsonnet.IsASCIIIdentifier "bar" genComponentParamsContent
            {[ "replicas" := "2" ]}).
  vm_compute. reflexivity.
Defined.

Lemma setEnvironmentParams_existing_witness :
  Run.setEnvironmentParams "foo" fooDoc {[ "b" := "3" ]}
  = Run.setComponentParams "foo" fooDoc {[ "b" := "3" ]}.
Proof.
  eapply (setEnvironmentParams_existing Jsonnet.astRoot Jsonnet.FormatFloat
            Jsonnet.IsASCIIIdentifier "foo" fooDoc).
  vm_compute. reflexivity.
Defined.

Lemma getAllComponentParams_getComponentParams_witness :
  ∃ loc, Run.getComponentParams "foo-bar" twoComponentsDoc
         = Ok ({[ "b" := "true" ]}, loc).
Proof.
  eassert (Hn : visitComponentsObj Jsonnet.astRoot "" twoComponentsDoc = Ok _)
    by (vm_compute; reflexivity).
  assert (Hall : getAllComponentParams Jsonnet.astRoot Jsonnet.FormatFloat
                   twoComponentsDoc = Ok twoComponentsAll)
    by (vm_compute; reflexivity).
  assert (Hl : twoComponentsAll !! "foo-bar" = Some ({[ "b" := "true" ]} : Params))
    by (vm_compute; reflexivity).
  lazymatch type of Hn with
  | _ = Ok ?n =>
      pose proof (getAllComponentParams_getComponentParams Jsonnet.astRoot
                    Jsonnet.FormatFloat "foo-bar" twoComponentsDoc n
                    twoComponentsAll Hn) as H
  end.
  rewrite Hl in H. apply H.
  - vm_compute. reflexivity.
  - apply (bool_decide_unpack _). vm_compute. exact I.
  - exact Hall.
Defined.

(** ** Rendering and splicing, line by line *)

Lemma string_app_nil_r (s : string) : s ++ "" = s.
Proof.
  induction s as [|c s IH]; [reflexivity|].
  change (String c (s ++ "") = String c s). by rewrite IH.
Qed.

Lemma writeParams_Join indent (params : Params) :
  writeParams indent params = newline ++ Join (paramLines indent params) ++ newline.
Proof.
  unfold writeParams, paramLines. f_equal. f_equal.
  induction (sortStrings (map fst (map_to_list params))) as [|k keys IH];
    [reflexivity|].
  rewrite IH. destruct keys as [|k' keys].
  - simpl. unfold renderLine. rewrite !string_app_assoc. cbn [String.append].
    by rewrite !string_app_nil_r.
  - change (map (renderLine indent params) (k :: k' :: keys))
      with (renderLine indent params k :: map (renderLine indent params) (k' :: keys)).
    rewrite Join_cons by discriminate.
    change (renderLine indent params k)
      with (spaces indent ++ k ++ ": " ++ default "" (params !! k) ++ ",").
    rewrite !string_app_assoc. reflexivity.
Qed.

Lemma string_le_total : Total string_le.
Proof. intros a b. apply String.leb_total. Qed.

Lemma sortStrings_elem_of (params : Params) k :
  k ∈ sortStrings (map fst (map_to_list params)) ↔ is_Some (params !! k).
Proof.
  unfold sortStrings. rewrite merge_sort_Permutation. split.
  - intros ([k' v] & -> & Hin)%(list_elem_of_fmap_1 fst).
    apply elem_of_map_to_list in Hin. by exists v.
  - intros [v Hv]. apply (list_elem_of_fmap_2 fst (map_to_list params) (k, v)).
    by apply elem_of_map_to_list.
Qed.

(** X13: [writeParams] renders a line feed, then one line
    [indent key: value,] per parameter, the keys in ascending order and
    each key once, the lines separated by line feeds, then a line feed. *)
Theorem writeParams_lines indent (params : Params) :
  ∃ keys,
    Sorted string_le keys ∧ NoDup keys ∧
    (∀ k, k ∈ keys ↔ is_Some (params !! k)) ∧
    writeParams indent params
    = newline ++ Join (map (renderLine indent params) keys) ++ newline.
Proof.
  exists (sortStrings (map fst (map_to_list params))). repeat split.
  - apply (@Sorted_merge_sort _ string_le _ string_le_total).
  - unfold sortStrings. rewrite merge_sort_Permutation.
    apply (NoDup_fst_map_to_list params).
  - apply sortStrings_elem_of.
  - apply sortStrings_elem_of.
  - apply writeParams_Join.
Qed.

Lemma paramLines_nonempty indent (params : Params) :
  params ≠ ∅ → paramLines indent params ≠ [].
Proof.
  intros Hne Hnil. apply Hne. apply map_eq. intros k. rewrite lookup_empty.
  destruct (params !! k) as [v|] eqn:Hk; [|reflexivity]. exfalso.
  assert (Hin : k ∈ sortStrings (map fst (map_to_list params)))
    by (apply sortStrings_elem_of; eauto).
  unfold paramLines in Hnil. apply map_eq_nil in Hnil. rewrite Hnil in Hin.
  by apply elem_of_nil in Hin.
Qed.

Lemma noNewline_spaces indent : noNewline (spaces indent) = true.
Proof. unfold spaces. induction (seq 0 (Z.to_nat indent)); [reflexivity | assumption]. Qed.

Lemma paramLines_single_line indent (params : Params) :
  singleLineParams params →
  Forall (λ l, noNewline l = true) (paramLines indent params).
Proof.
  intros Hclean. unfold paramLines. apply Forall_map, Forall_forall.
  intros k Hk. apply sortStrings_elem_of in Hk as [v Hv].
  destruct (Hclean k v Hv) as [Hkc Hvc].
  unfold renderLine. rewrite Hv. simpl.
  rewrite !noNewline_app, noNewline_spaces, Hkc, Hvc. reflexivity.
Qed.

Lemma Join_flatten (A M B : list string) :
  M ≠ [] → Join (A ++ Join M :: B) = Join (A ++ M ++ B).
Proof.
  intros HM. induction A as [|a A IH].
  - simpl app. destruct B as [|b B].
    + by rewrite app_nil_r.
    + rewrite Join_cons, Join_app by (assumption || discriminate). reflexivity.
  - change (Join (a :: (A ++ Join M :: B)) = Join (a :: (A ++ M ++ B))).
    rewrite !Join_cons, IH; [reflexivity | |].
    + intros [_ [? _]%app_eq_nil]%app_eq_nil. contradiction.
    + intros [_ ?]%app_eq_nil. discriminate.
Qed.

(** The text between two runs of lines that [writeParams] fills. *)
Lemma Join_writeParams head tail (params : Params) :
  head ≠ [] → tail ≠ [] → params ≠ ∅ →
  Join head ++ writeParams 6 params ++ Join tail
  = Join (head ++ paramLines 6 params ++ tail).
Proof.
  intros Hh Ht Hp. pose proof (paramLines_nonempty 6 params Hp) as Hl.
  rewrite writeParams_Join.
  rewrite (Join_app head) by (try assumption; intros [? _]%app_eq_nil; contradiction).
  rewrite (Join_app (paramLines 6 params)) by assumption.
  rewrite !string_app_assoc. reflexivity.
Qed.

Lemma take_nonempty (l : list string) (n : Z) :
  (1 ≤ n)%Z → l ≠ [] → take (Z.to_nat n) l ≠ [].
Proof.
  intros Hn Hl Hnil. apply (f_equal length) in Hnil. rewrite length_take in Hnil.
  destruct l; [contradiction|]. cbn [length] in Hnil. lia.
Qed.

Lemma drop_nonempty (l : list string) (n : Z) :
  (0 ≤ n < Z.of_nat (length l))%Z → drop (Z.to_nat n) l ≠ [].
Proof.
  intros Hn Hnil. apply (f_equal length) in Hnil. rewrite length_drop in Hnil.
  simpl in Hnil. lia.
Qed.

Section Lines.
Variable astRoot : string → string → result Node.
Variable FormatFloat : float → string.
Variable IsASCIIIdentifier : string → bool.

Lemma spliceLines_replaceLines snippet loc (params : Params) :
  (1 ≤ Line (Begin loc) ≤ Z.of_nat (length (Split snippet)))%Z →
  (1 ≤ Line (End_ loc) ≤ Z.of_nat (length (Split snippet)))%Z →
  params ≠ ∅ →
  spliceLines snippet loc (writeParams 6 params)
  = Ok (replaceLines snippet (Line (Begin loc)) (Line (End_ loc)) (paramLines 6 params)).
Proof.
  intros Hb He Hp. rewrite spliceLines_ok by lia. unfold replaceLines.
  rewrite Join_writeParams; [reflexivity | | | assumption].
  - apply take_nonempty; [lia | apply Split_nonempty].
  - apply drop_nonempty. lia.
Qed.

(** X14: [setComponentParams] rewrites whole lines and nothing else: with
    the range of the component's object going from line [b] to line [e] of
    the source, the returned text is the first [b] lines of the source,
    then one line per merged parameter in key order, then the source from
    line [e] on. *)
Theorem setComponentParams_lines component snippet (params currentParams : Params) loc :
  getComponentParams astRoot FormatFloat component snippet = Ok (currentParams, loc) →
  (1 ≤ Line (Begin loc) ≤ Z.of_nat (length (Split snippet)))%Z →
  (1 ≤ Line (End_ loc) ≤ Z.of_nat (length (Split snippet)))%Z →
  mergeCurrent currentParams params ≠ ∅ →
  setComponentParams astRoot FormatFloat component snippet params
  = Ok (replaceLines snippet (Line (Begin loc)) (Line (End_ loc))
          (paramLines 6 (mergeCurrent currentParams params))).
Proof.
  intros Hget Hb He Hp. unfold setComponentParams. rewrite Hget.
  by apply spliceLines_replaceLines.
Qed.

Lemma componentBlock_Join opening (params : Params) :
  params ≠ ∅ →
  opening ++ writeParams 6 params ++ blockClosing
  = Join (opening :: paramLines 6 params ++ [blockClosing]).
Proof.
  intros Hp. pose proof (paramLines_nonempty 6 params Hp) as Hl.
  rewrite writeParams_Join, Join_cons, Join_app;
    [| assumption | discriminate | intros [? _]%app_eq_nil; contradiction].
  rewrite !string_app_assoc. reflexivity.
Qed.

(** X15: [appendComponent] only inserts lines: with the components object
    ending on line [E], the returned text is the first [E - 1] lines of the
    source, the opening line of the block, one line per parameter in key
    order, the closing line of the block, and the source from line [E]
    on; every line of the source is kept, in order. *)
Theorem appendComponent_lines component snippet (params : Params) n :
  visitComponentsObj astRoot component snippet = Ok n →
  checkAbsent component (ObjFields n) = Ok tt →
  (1 ≤ Line (End_ (ObjLoc n)) ≤ Z.of_nat (length (Split snippet)) + 1)%Z →
  params ≠ ∅ →
  appendComponent astRoot IsASCIIIdentifier component snippet params
  = Ok (replaceLines snippet (Line (End_ (ObjLoc n)) - 1) (Line (End_ (ObjLoc n)))
          (componentOpening (SanitizeComponent IsASCIIIdentifier component)
           :: paramLines 6 params ++ [blockClosing])).
Proof.
  intros Hn Habsent HE Hp. unfold appendComponent. rewrite Hn, Habsent.
  unfold insertLineAt. rewrite bool_decide_eq_true_2 by lia.
  unfold replaceLines.
  change ("    },") with blockClosing.
  change ("    " ++ SanitizeComponent IsASCIIIdentifier component ++ ": {")
    with (componentOpening (SanitizeComponent IsASCIIIdentifier component)).
  cbv zeta. rewrite (componentBlock_Join _ params Hp).
  f_equal. apply Join_flatten. discriminate.
Qed.

(** X16: for a component without entry [setEnvironmentParams] inserts at
    the place where [appendComponent] inserts, before the line [E >= 2] on
    which the components object ends: the opening line [name +: {], one
    line per parameter in key order and the closing line; every line of
    the source is kept, in order. *)
Theorem setEnvironmentParams_insert_lines component snippet (params : Params) n :
  visitComponentsObj astRoot component snippet = Ok n →
  findComponent component (ObjFields n) = Ok None →
  (2 ≤ Line (End_ (ObjLoc n)) ≤ Z.of_nat (length (Split snippet)))%Z →
  params ≠ ∅ →
  setEnvironmentParams astRoot FormatFloat IsASCIIIdentifier component snippet params
  = Ok (replaceLines snippet (Line (End_ (ObjLoc n)) - 1) (Line (End_ (ObjLoc n)))
          (patchOpening (SanitizeComponent IsASCIIIdentifier component)
           :: paramLines 6 params ++ [blockClosing])).
Proof.
  intros Hn Hfind HE Hp. unfold setEnvironmentParams, getEnvironmentParams.
  rewrite Hn, Hfind, mergeCurrent_empty.
  rewrite spliceLines_ok by (simpl; lia). simpl Line. cbn [negb].
  unfold replaceLines.
  set (h := take _ _). set (t := drop _ _).
  assert (Hh : h ≠ []) by (apply take_nonempty; [lia | apply Split_nonempty]).
  assert (Ht : t ≠ []) by (apply drop_nonempty; lia).
  rewrite (Join_app h) by (assumption || discriminate).
  change ((patchOpening (SanitizeComponent IsASCIIIdentifier component)
           :: paramLines 6 params ++ [blockClosing]) ++ t)%list
    with (patchOpening (SanitizeComponent IsASCIIIdentifier component)
          :: ((paramLines 6 params ++ [blockClosing]) ++ t))%list.
  pose proof (paramLines_nonempty 6 params Hp) as Hl.
  rewrite Join_cons by (intros [[? _]%app_eq_nil _]%app_eq_nil; contradiction).
  rewrite <- app_assoc, (Join_app (paramLines 6 params)) by (assumption || discriminate).
  change ([blockClosing] ++ t)%list with (blockClosing :: t).
  rewrite Join_cons by assumption.
  rewrite writeParams_Join. unfold patchOpening, blockClosing.
  rewrite !string_app_assoc. reflexivity.
Qed.

(** X17: re-applying parameters changes nothing: let [setComponentParams]
    rewrite the component into the text [s1] and let the parser read the
    rewritten block of [s1] where it was written, from line [b] to the line
    after the parameter lines, as the merged Params.  Then
    [setComponentParams] with the same parameters returns [s1] again. *)
Theorem setComponentParams_idempotent
    component snippet (params currentParams : Params) loc loc1 :
  getComponentParams astRoot FormatFloat component snippet = Ok (currentParams, loc) →
  (1 ≤ Line (Begin loc) ≤ Z.of_nat (length (Split snippet)))%Z →
  (1 ≤ Line (End_ loc) ≤ Z.of_nat (length (Split snippet)))%Z →
  mergeCurrent currentParams params ≠ ∅ →
  singleLineParams (mergeCurrent currentParams params) →
  getComponentParams astRoot FormatFloat component
    (replaceLines snippet (Line (Begin loc)) (Line (End_ loc))
       (paramLines 6 (mergeCurrent currentParams params)))
  = Ok (mergeCurrent currentParams params, loc1) →
  Line (Begin loc1) = Line (Begin loc) →
  Line (End_ loc1)
  = (Line (Begin loc)
     + Z.of_nat (length (paramLines 6 (mergeCurrent currentParams params))) + 1)%Z →
  setComponentParams astRoot FormatFloat component snippet params
  = Ok (replaceLines snippet (Line (Begin loc)) (Line (End_ loc))
          (paramLines 6 (mergeCurrent currentParams params))) ∧
  setComponentParams astRoot FormatFloat component
    (replaceLines snippet (Line (Begin loc)) (Line (End_ loc))
       (paramLines 6 (mergeCurrent currentParams params))) params
  = Ok (replaceLines snippet (Line (Begin loc)) (Line (End_ loc))
          (paramLines 6 (mergeCurrent currentParams params))).
Proof.
  intros Hget Hb He Hp Hclean Hget1 Hb1 He1.
  set (merged := mergeCurrent currentParams params) in *.
  split.
  - unfold setComponentParams. rewrite Hget. fold merged.
    by apply spliceLines_replaceLines.
  - unfold setComponentParams. rewrite Hget1.
    assert (Hmerge : mergeCurrent merged params = merged).
    { unfold merged. rewrite !mergeCurrent_union.
      by rewrite (assoc_L (∪)), (idemp_L (∪)). }
    rewrite Hmerge.
    set (h := take (Z.to_nat (Line (Begin loc))) (Split snippet)).
    set (t := drop (Z.to_nat (Line (End_ loc) - 1)) (Split snippet)).
    set (pl := paramLines 6 merged) in *.
    assert (Hh : h ≠ []) by (apply take_nonempty; [lia | apply Split_nonempty]).
    assert (Ht : t ≠ []) by (apply drop_nonempty; lia).
    assert (Hlen : length h = Z.to_nat (Line (Begin loc)))
      by (subst h; rewrite length_take; lia).
    assert (Hsplit : Split (replaceLines snippet (Line (Begin loc)) (Line (End_ loc)) pl)
                     = (h ++ pl ++ t)%list).
    { unfold replaceLines. fold h. fold t. apply Split_Join.
      - intros [? _]%app_eq_nil. contradiction.
      - pose proof (Split_Forall snippet) as Hall.
        apply Forall_app. split; [by apply Forall_take|].
        apply Forall_app. split; [by apply paramLines_single_line | by apply Forall_drop]. }
    unfold spliceLines. rewrite Hsplit, Hb1, He1.
    rewrite slice_to_ok, slice_from_ok by (rewrite !length_app, Hlen; lia).
    replace (Z.to_nat (Line (Begin loc))) with (length h + 0)%nat by lia.
    replace (Z.to_nat (Line (Begin loc) + Z.of_nat (length pl) + 1 - 1))
      with (length h + length pl)%nat by lia.
    rewrite take_app_add, take_0, app_nil_r.
    rewrite drop_app_add, drop_app_length.
    unfold replaceLines. fold h. fold t.
    f_equal. apply Join_writeParams; assumption.
Qed.

End Lines.

Lemma setComponentParams_lines_witness :
  Run.setComponentParams "foo" fooDoc {[ "b" := "3"; "z" := "9" ]}
  = Ok (replaceLines fooDoc 3 6
          (paramLines 6 (mergeCurrent {[ "a" := "1"; "b" := "2" ]}
                                      {[ "b" := "3"; "z" := "9" ]}))).
Proof.
  apply (setComponentParams_lines Jsonnet.astRoot Jsonnet.FormatFloat "foo" fooDoc
           {[ "b" := "3"; "z" := "9" ]} {[ "a" := "1"; "b" := "2" ]}
           (mkLocationRange (mkLocation 3 10) (mkLocation 6 6))).
  - vm_compute. reflexivity.
  - vm_compute. split; discriminate.
  - vm_compute. split; discriminate.
  - intros H. apply (f_equal (λ m : Params, m !! "a")) in H.
    vm_compute in H. discriminate.
Defined.

Lemma appendComponent_lines_witness :
  Run.appendComponent "bar" genComponentParamsContent {[ "replicas" := "2" ]}
  = Ok (replaceLines genComponentParamsContent 8 9
          (componentOpening "bar" :: paramLines 6 {[ "replicas" := "2" ]}
           ++ [blockClosing])).
Proof.
  eassert (Hn : visitComponentsObj Jsonnet.astRoot "bar" genComponentParamsContent
                = Ok _) by (vm_compute; reflexivity).
  lazymatch type of Hn with
  | _ = Ok ?n =>
      apply (appendComponent_lines Jsonnet.astRoot Jsonnet.IsASCIIIdentifier
               "bar" genComponentParamsContent {[ "replicas" := "2" ]} n Hn)
  end.
  - vm_compute. reflexivity.
  - vm_compute. split; discriminate.
  - intros H. apply (f_equal (λ m : Params, m !! "replicas")) in H.
    vm_compute in H. discriminate.
Defined.

Lemma setEnvironmentParams_insert_lines_witness :
  Run.setEnvironmentParams "bar" environmentDoc {[ "replicas" := "5" ]}
  = Ok (replaceLines environmentDoc 8 9
          (patchOpening "bar" :: paramLines 6 {[ "replicas" := "5" ]}
           ++ [blockClosing])).
Proof.
  eassert (Hn : visitComponentsObj Jsonnet.astRoot "bar" environmentDoc = Ok _)
    by (vm_compute; reflexivity).
  lazymatch type of Hn with
  | _ = Ok ?n =>
      apply (setEnvironmentParams_insert_lines Jsonnet.astRoot Jsonnet.FormatFloat
               Jsonnet.IsASCIIIdentifier
               "bar" environmentDoc {[ "replicas" := "5" ]} n Hn)
  end.
  - vm_compute. reflexivity.
  - vm_compute. split; discriminate.
  - intros H. apply (f_equal (λ m : Params, m !! "replicas")) in H.
    vm_compute in H. discriminate.
Defined.

Lemma setComponentParams_idempotent_witness :
  Run.setComponentParams "foo" fooDoc {[ "b" := "3"; "z" := "9" ]}
  = Ok (replaceLines fooDoc 3 6
          (paramLines 6 (mergeCurrent {[ "a" := "1"; "b" := "2" ]}
                                      {[ "b" := "3"; "z" := "9" ]}))) ∧
  Run.setComponentParams "foo"
    (replaceLines fooDoc 3 6
       (paramLines 6 (mergeCurrent {[ "a" := "1"; "b" := "2" ]}
                                   {[ "b" := "3"; "z" := "9" ]})))
    {[ "b" := "3"; "z" := "9" ]}
  = Ok (replaceLines fooDoc 3 6
          (paramLines 6 (mergeCurrent {[ "a" := "1"; "b" := "2" ]}
                                      {[ "b" := "3"; "z" := "9" ]}))).
Proof.
  apply (setComponentParams_idempotent Jsonnet.astRoot Jsonnet.FormatFloat
           "foo" fooDoc
           {[ "b" := "3"; "z" := "9" ]} {[ "a" := "1"; "b" := "2" ]}
           (mkLocationRange (mkLocation 3 10) (mkLocation 6 6))
           (mkLocationRange (mkLocation 3 10) (mkLocation 7 6))).
  - vm_compute. reflexivity.
  - vm_compute. split; discriminate.
  - vm_compute. split; discriminate.
  - intros H. apply (f_equal (λ m : Params, m !! "a")) in H.
    vm_compute in H. discriminate.
  - unfold singleLineParams. apply (bool_decide_unpack _). vm_compute. exact I.
  - vm_compute. reflexivity.
  - reflexivity.
  - vm_compute. reflexivity.
Defined.

Section AllComponents.
Variable astRoot : string → string → result Node.
Variable FormatFloat : float → string.

Lemma visitAllFields_keys fields acc all :
  visitAllFields FormatFloat fields acc = Ok all →
  Forall (λ f, ∃ id p loc, getFieldID f = Ok id ∧
                           visitParams FormatFloat (FieldExpr2 f) = Ok (p, loc) ∧
                           is_Some (all !! id)) fields ∧
  (∀ k, is_Some (all !! k) ↔ k ∈ fieldKeys fields ∨ is_Some (acc !! k)).
Proof.
  revert acc. induction fields as [|f fields IH]; intros acc.
  - simpl. intros [= ->]. split; [constructor|].
    intros k. split; [by right|]. intros [H|H]; [|exact H].
    by apply elem_of_nil in H.
  - rewrite fieldKeys_cons. simpl.
    destruct (visitParams FormatFloat (FieldExpr2 f)) as [[p l]|] eqn:Hp; [|discriminate].
    destruct (getFieldID f) as [id|] eqn:Hid; [|discriminate].
    simpl. intros Hall. destruct (IH _ Hall) as [Hfields Hkeys]. split.
    + constructor; [|exact Hfields]. exists id, p, l.
      split; [exact Hid|]. split; [exact Hp|].
      apply Hkeys. right. rewrite lookup_insert_eq. by eexists.
    + intros k. rewrite Hkeys, elem_of_cons. destruct (decide (id = k)) as [->|Hne].
      * rewrite lookup_insert_eq. split; [by left; left|]. intros _. right. by eexists.
      * rewrite lookup_insert_ne by exact Hne. split.
        -- intros [H|H]; [left; by right | by right].
        -- intros [[H|H]|H]; [by symmetry in H | by left | by right].
Qed.

(** X18: when [getAllComponentParams] returns a map, every entry of the
    components object has a name that [getFieldID] reads and a value that
    [visitParams] reads, and the keys of the map are exactly these names:
    one unreadable component makes the whole call fail, and no component
    is left out. *)
Theorem getAllComponentParams_keys snippet n all :
  visitComponentsObj astRoot "" snippet = Ok n →
  getAllComponentParams astRoot FormatFloat snippet = Ok all →
  Forall (λ f, ∃ id p loc, getFieldID f = Ok id ∧
                           visitParams FormatFloat (FieldExpr2 f) = Ok (p, loc) ∧
                           is_Some (all !! id)) (ObjFields n) ∧
  (∀ k, is_Some (all !! k) ↔ k ∈ fieldKeys (ObjFields n)).
Proof.
  intros Hn. unfold getAllComponentParams, visitAllParams. rewrite Hn. intros Hall.
  destruct (visitAllFields_keys _ _ _ Hall) as [Hfields Hkeys].
  split; [exact Hfields|]. intros k. rewrite Hkeys. split; [|by left].
  intros [H|H]; [exact H|]. rewrite lookup_empty in H. by destruct H.
Qed.

End AllComponents.

Lemma getAllComponentParams_keys_witness :
  is_Some (twoComponentsAll !! "foo-bar") ↔ "foo-bar" ∈ ["foo"; "foo-bar"].
Proof.
  eassert (Hn : visitComponentsObj Jsonnet.astRoot "" twoComponentsDoc = Ok _)
    by (vm_compute; reflexivity).
  assert (Hall : getAllComponentParams Jsonnet.astRoot Jsonnet.FormatFloat
                   twoComponentsDoc = Ok twoComponentsAll)
    by (vm_compute; reflexivity).
  lazymatch type of Hn with
  | _ = Ok ?n =>
      exact (proj2 (getAllComponentParams_keys Jsonnet.astRoot Jsonnet.FormatFloat
                      twoComponentsDoc n twoComponentsAll Hn Hall) "foo-bar")
  end.
Defined.
